(** * Verification of the corpus-scale fuzzy substring search of
    code-llm-contamination ([novelty_score/]).

    Modelled sources:
    - [utils/fuzzy_matching.py]: [slow_fuzzy_match], [fast_fuzzy_match],
      [fuzzy_match_shared_memory];
    - [utils/chunk_processing.py]: [create_corpus_chunks],
      [search_test_string_in_chunks], [search_multiple_test_strings_in_chunks];
    - [fuzzy_match_main.py]: [main] (the loop over corpus shards).

    A Python [str] is its sequence of code points ([list Z]); bytes are
    [list Z] with values in [0, 255].  The two rapidfuzz primitives used by
    the scorers ([fuzz.ratio], [fuzz.partial_ratio_alignment]) belong to an
    external library; they are modelled after the library's reference
    algorithm, with similarity scores computed exactly in [Q] (the library
    computes the same quotients in double precision). *)

From Stdlib Require Import String Ascii.
From Stdlib Require Import List ZArith QArith Qround Qminmax Lia Lqa Bool Permutation.
Import ListNotations.

Open Scope Z_scope.

Definition pystr := list Z.
Definition bytes := list Z.

(** [len(s)] *)
Definition py_len {A} (s : list A) : Z := Z.of_nat (length s).

(** [s[a:b]] for [0 <= a], [0 <= b] (Python clamps at the end). *)
Definition py_slice {A} (s : list A) (a b : nat) : list A :=
  firstn (b - a)%nat (skipn a s).

(** [s[k]], negative indices counting from the end; [None] is the
    [IndexError]. *)
Definition py_get {A} (s : list A) (k : Z) : option A :=
  if k <? 0 then
    if k <? - py_len s then None else nth_error s (Z.to_nat (py_len s + k))
  else nth_error s (Z.to_nat k).

(** [range(start, stop, step)] for [step > 0]. *)
Definition py_range_step (start stop step : Z) : list Z :=
  map (fun k => start + Z.of_nat k * step)
      (seq 0%nat (Z.to_nat ((stop - start + step - 1) / step))).

(** Python's [round] on a number: to the nearest integer, ties to even. *)
Definition py_round (q : Q) : Z :=
  let f := Qfloor q in
  let d := (q - inject_Z f)%Q in
  if Qlt_le_dec d (1 # 2) then f
  else if Qlt_le_dec (1 # 2) d then f + 1
  else if Z.even f then f else f + 1.

(** Truth value of an [Optional[str]] ([None] and [""] are false). *)
Definition py_truthy (m : option pystr) : bool :=
  match m with Some (_ :: _) => true | _ => false end.

(** ** [utils/constants.py] *)
Definition CHUNK_SIZE : Z := 2000000.
Definition FUZZ_THRESHOLD : Z := 60.

(** ** rapidfuzz: [fuzz.ratio]

    The normalized Indel similarity
    [100 * (1 - dist / (len1 + len2))], where the Indel distance is
    [len1 + len2 - 2 * lcs] (longest common subsequence). *)
Fixpoint lcs (a b : pystr) : nat :=
  match a with
  | [] => 0%nat
  | x :: a' =>
      (fix lcs_a (b : pystr) : nat :=
         match b with
         | [] => 0%nat
         | y :: b' =>
             if Z.eqb x y then S (lcs a' b')
             else Nat.max (lcs a' b) (lcs_a b')
         end) b
  end.

Definition indel_distance (a b : pystr) : nat :=
  (length a + length b - 2 * lcs a b)%nat.

Definition ratio (s1 s2 : pystr) : Q :=
  let lensum := (length s1 + length s2)%nat in
  if Nat.eqb lensum 0 then 100%Q
  else (100 * (1 - inject_Z (Z.of_nat (indel_distance s1 s2))
                   / inject_Z (Z.of_nat lensum)))%Q.

(** ** rapidfuzz: [fuzz.partial_ratio_alignment] *)
Record ScoreAlignment := {
  sa_score : Q;
  src_start : nat;
  src_end : nat;
  dest_start : nat;
  dest_end : nat
}.

Definition sa_swap (r : ScoreAlignment) : ScoreAlignment :=
  {| sa_score := sa_score r;
     src_start := dest_start r; src_end := dest_end r;
     dest_start := src_start r; dest_end := src_end r |}.

(** The window scan of [partial_ratio_impl] (shorter string [s1], longer
    [s2]).  A candidate is [(dest_start, dest_end, k)]: the window
    [s2[dest_start:dest_end]] is scored only when the character [s2[k]]
    occurs in [s1]; the best strictly larger score is kept and the scan
    returns as soon as a window scores 100 ([inr]).  The library passes the
    running best as [score_cutoff] to [ratio]; a window below it is
    reported as 0 and so is not kept either, as here. *)
Fixpoint pr_scan (s1 s2 : pystr) (cands : list (nat * nat * Z))
    (res : ScoreAlignment) : ScoreAlignment + ScoreAlignment :=
  match cands with
  | [] => inl res
  | (ds, de, k) :: rest =>
      let keep := match py_get s2 k with
                  | Some c => existsb (Z.eqb c) s1
                  | None => false
                  end in
      if negb keep then pr_scan s1 s2 rest res
      else
        let r := ratio s1 (py_slice s2 ds de) in
        if Qlt_le_dec (sa_score res) r then
          let res' := {| sa_score := r;
                         src_start := src_start res; src_end := src_end res;
                         dest_start := ds; dest_end := de |} in
          if Qeq_bool r 100%Q then inr res' else pr_scan s1 s2 rest res'
        else pr_scan s1 s2 rest res
  end.

(** The three loops: prefixes [s2[:i]] for [i in range(1, len1)], full
    windows [s2[i:i+len1]] for [i in range(len2 - len1)], suffixes
    [s2[i:]] for [i in range(len2 - len1, len2)]. *)
Definition pr_prefix_cands (len1 : nat) : list (nat * nat * Z) :=
  map (fun i => (0%nat, i, Z.of_nat i - 1)) (seq 1 (len1 - 1)%nat).

Definition pr_window_cands (len1 len2 : nat) : list (nat * nat * Z) :=
  map (fun i => (i, (i + len1)%nat, Z.of_nat (i + len1) - 1))
      (seq 0 (len2 - len1)%nat).

Definition pr_suffix_cands (len1 len2 : nat) : list (nat * nat * Z) :=
  map (fun i => (i, len2, Z.of_nat i)) (seq (len2 - len1)%nat (len2 - (len2 - len1))%nat).

Definition partial_ratio_impl (s1 s2 : pystr) : ScoreAlignment :=
  let len1 := length s1 in
  let len2 := length s2 in
  let init := {| sa_score := 0%Q; src_start := 0%nat; src_end := len1;
                 dest_start := 0%nat; dest_end := len1 |} in
  match pr_scan s1 s2 (pr_prefix_cands len1 ++ pr_window_cands len1 len2
                         ++ pr_suffix_cands len1 len2) init with
  | inl r | inr r => r
  end.

(** [partial_ratio_alignment(s1, s2)] with the default [score_cutoff = 0]:
    the shorter string is searched in the longer one (the alignment is
    swapped back when [s1] is the longer); for equal lengths both
    directions are tried. *)
Definition partial_ratio_alignment (s1 s2 : pystr) : option ScoreAlignment :=
  let len1 := length s1 in
  let len2 := length s2 in
  let score_cutoff : Q := 0%Q in
  if Nat.eqb len1 0 && Nat.eqb len2 0 then
    Some {| sa_score := 100%Q; src_start := 0%nat; src_end := 0%nat;
            dest_start := 0%nat; dest_end := 0%nat |}
  else
    let '(shorter, longer) := if Nat.leb len1 len2 then (s1, s2) else (s2, s1) in
    let res := partial_ratio_impl shorter longer in
    let '(res, score_cutoff) :=
      if negb (Qeq_bool (sa_score res) 100%Q) && Nat.eqb len1 len2 then
        let score_cutoff := Qmax score_cutoff (sa_score res) in
        let res2 := partial_ratio_impl longer shorter in
        if Qlt_le_dec (sa_score res) (sa_score res2)
        then (sa_swap res2, score_cutoff) else (res, score_cutoff)
      else (res, score_cutoff) in
    if Qlt_le_dec (sa_score res) score_cutoff then None
    else if Nat.leb len1 len2 then Some res else Some (sa_swap res).

(** ** [utils/fuzzy_matching.py] *)

(** [stride = max(int(len(test_str) * STRIDE_PERCENT), 1)] with
    [STRIDE_PERCENT = 0.05]: [int(n * 0.05)] is [n / 20]. *)
Definition stride (test_str : pystr) : Z := Z.max (py_len test_str / 20) 1.

Definition slow_offsets (test_str chunk : pystr) : list Z :=
  py_range_step 0 (py_len chunk - py_len test_str) (stride test_str).

Definition slow_window (test_str chunk : pystr) (i : Z) : pystr :=
  py_slice chunk (Z.to_nat i) (Z.to_nat (i + py_len test_str)).

(** One iteration: [score = fuzz.ratio(window, test_str)]; if
    [score > best_score] then [best_score = round(score)] and
    [best_match = window]. *)
Definition slow_step (test_str chunk : pystr)
    (st : option pystr * Z) (i : Z) : option pystr * Z :=
  let '(best_match, best_score) := st in
  let w := slow_window test_str chunk i in
  let score := ratio w test_str in
  if Qlt_le_dec (inject_Z best_score) score then (Some w, py_round score)
  else (best_match, best_score).

(** The [for] loop, from [best_score = 0], [best_match = None]. *)
Definition slow_scan (test_str chunk : pystr) : option pystr * Z :=
  fold_left (slow_step test_str chunk) (slow_offsets test_str chunk) (None, 0).

(** The best window score of the scan, as a number (used to state what
    the loop computes). *)
Definition slow_window_best (test_str chunk : pystr) : Q :=
  fold_left Qmax (map (fun i => ratio (slow_window test_str chunk i) test_str)
                      (slow_offsets test_str chunk)) 0%Q.

Definition slow_fuzzy_match (test_str chunk : pystr) : option pystr * Z :=
  let '(best_match, best_score) := slow_scan test_str chunk in
  if best_score >=? FUZZ_THRESHOLD then (best_match, best_score) else (None, 0).

Definition fast_fuzzy_match (test_str chunk : pystr) : option pystr * Z :=
  match partial_ratio_alignment test_str chunk with
  | Some sa =>
      if Qlt_le_dec (inject_Z FUZZ_THRESHOLD) (sa_score sa) then
        (Some (py_slice chunk (dest_start sa) (dest_end sa)), py_round (sa_score sa))
      else (None, 0)
  | None => (None, 0)
  end.


(** ** Exceptions *)
Inductive py_exc :=
| UnicodeEncodeError
| UnicodeDecodeError
| ValueError
| FileNotFoundError.

Inductive exc (A : Type) : Type :=
| Ok : A -> exc A
| Raise : py_exc -> exc A.
Arguments Ok {A} _.
Arguments Raise {A} _.

Notation "x <- m ;; k" :=
  (match m with Ok x => k | Raise e => Raise e end)
  (at level 61, m at next level, right associativity).

(** ** UTF-8 ([str.encode("utf-8")], [bytes.decode("utf-8")], strict) *)

(** A [str] holds code points in [0, 0x10FFFF], surrogates included. *)
Definition valid_pystr (s : pystr) : Prop := Forall (fun c => 0 <= c <= 0x10FFFF) s.

Definition is_surrogate (c : Z) : bool := (0xD800 <=? c) && (c <=? 0xDFFF).

Definition encode_cp (ch : Z) : bytes :=
  if ch <? 0x80 then [ch]
  else if ch <? 0x800 then
    [Z.lor 0xC0 (Z.shiftr ch 6); Z.lor 0x80 (Z.land ch 0x3F)]
  else if ch <? 0x10000 then
    [Z.lor 0xE0 (Z.shiftr ch 12); Z.lor 0x80 (Z.land (Z.shiftr ch 6) 0x3F);
     Z.lor 0x80 (Z.land ch 0x3F)]
  else
    [Z.lor 0xF0 (Z.shiftr ch 18); Z.lor 0x80 (Z.land (Z.shiftr ch 12) 0x3F);
     Z.lor 0x80 (Z.land (Z.shiftr ch 6) 0x3F); Z.lor 0x80 (Z.land ch 0x3F)].

(** A lone surrogate makes the strict encoder raise. *)
Definition utf8_encode (s : pystr) : option bytes :=
  if existsb is_surrogate s then None else Some (flat_map encode_cp s).

Definition is_cont (b : Z) : bool := (0x80 <=? b) && (b <? 0xC0).

Fixpoint utf8_decode (bs : bytes) : option pystr :=
  match bs with
  | [] => Some []
  | b0 :: r0 =>
      if b0 <? 0x80 then option_map (cons b0) (utf8_decode r0)
      else if (0xC2 <=? b0) && (b0 <=? 0xDF) then
        match r0 with
        | b1 :: r1 =>
            if is_cont b1 then
              option_map (cons (Z.shiftl (Z.land b0 0x1F) 6 + Z.land b1 0x3F))
                         (utf8_decode r1)
            else None
        | [] => None
        end
      else if (0xE0 <=? b0) && (b0 <=? 0xEF) then
        match r0 with
        | b1 :: b2 :: r2 =>
            let ch := Z.shiftl (Z.land b0 0x0F) 12 + Z.shiftl (Z.land b1 0x3F) 6
                      + Z.land b2 0x3F in
            if is_cont b1 && is_cont b2 && (0x800 <=? ch) && negb (is_surrogate ch)
            then option_map (cons ch) (utf8_decode r2)
            else None
        | _ => None
        end
      else if (0xF0 <=? b0) && (b0 <=? 0xF4) then
        match r0 with
        | b1 :: b2 :: b3 :: r3 =>
            let ch := Z.shiftl (Z.land b0 0x07) 18 + Z.shiftl (Z.land b1 0x3F) 12
                      + Z.shiftl (Z.land b2 0x3F) 6 + Z.land b3 0x3F in
            if is_cont b1 && is_cont b2 && is_cont b3
               && (0x10000 <=? ch) && (ch <=? 0x10FFFF)
            then option_map (cons ch) (utf8_decode r3)
            else None
        | _ => None
        end
      else None
  end.

(** ** [multiprocessing.shared_memory.SharedMemory] holding one chunk

    [SharedMemory(name=SHM_NAME, create=True, size=n)] refuses [n = 0]
    ([ValueError]); the region holds [n] zero bytes, then
    [shm.buf[:len(chunk_encoded)] = chunk_encoded] overwrites them. *)
Definition shm_create (size : nat) : exc bytes :=
  if Nat.eqb size 0 then Raise ValueError else Ok (repeat 0 size).

Definition shm_write (region data : bytes) : bytes :=
  data ++ skipn (length data) region.

(** The publishing half of [search_multiple_test_strings_in_chunks]:
    [chunk_encoded = chunk_str.encode("utf-8")], create, write. *)
Definition shm_publish (chunk_str : pystr) : exc bytes :=
  match utf8_encode chunk_str with
  | None => Raise UnicodeEncodeError
  | Some chunk_encoded =>
      region <- shm_create (length chunk_encoded) ;;
      Ok (shm_write region chunk_encoded)
  end.

(** [fuzzy_match_shared_memory(test_str)]: the worker attaches the region
    by name ([None]: no such region, [FileNotFoundError]), decodes the whole
    buffer and runs [fast_fuzzy_match]. *)
Definition shm_attach_decode (region : option bytes) : exc pystr :=
  match region with
  | None => Raise FileNotFoundError
  | Some buf =>
      match utf8_decode buf with
      | None => Raise UnicodeDecodeError
      | Some chunk => Ok chunk
      end
  end.

Definition fuzzy_match_shared_memory (region : option bytes) (test_str : pystr)
    : exc (option pystr * Z) :=
  chunk <- shm_attach_decode region ;;
  Ok (fast_fuzzy_match test_str chunk).

(** ** [utils/chunk_processing.py]: [create_corpus_chunks] *)

Definition CorpusChunks := list (Z * pystr).

(** The inner loop: [while i < len(corpus_data) and
    str_builder.tell() < CHUNK_SIZE: str_builder.write(corpus_data[i]);
    i += 1].  [tell()] is the number of characters written.  Returns the
    chunk text and the documents not yet consumed. *)
Fixpoint fill_chunk (docs : list pystr) (str_builder : pystr) : pystr * list pystr :=
  match docs with
  | [] => (str_builder, [])
  | d :: rest =>
      if py_len str_builder <? CHUNK_SIZE then fill_chunk rest (str_builder ++ d)
      else (str_builder, docs)
  end.

(** [len(chunks) < max_corpus_chunks if max_corpus_chunks else True]:
    [None] and [0] mean no limit. *)
Definition below_max_chunks (chunks : CorpusChunks) (max_corpus_chunks : option Z) : bool :=
  match max_corpus_chunks with
  | None => true
  | Some m => if m =? 0 then true else py_len chunks <? m
  end.

(** The outer loop; each round consumes at least one document, so
    [length docs] rounds suffice (see [chunks_loop_spec]). *)
Fixpoint chunks_loop (fuel : nat) (docs : list pystr) (max_corpus_chunks : option Z)
    (start_index : Z) (chunks : CorpusChunks) : CorpusChunks :=
  match fuel with
  | O => chunks
  | S fuel' =>
      match docs with
      | [] => chunks
      | _ :: _ =>
          if below_max_chunks chunks max_corpus_chunks then
            let '(text, rest) := fill_chunk docs [] in
            chunks_loop fuel' rest max_corpus_chunks start_index
                        (chunks ++ [(py_len chunks + start_index, text)])
          else chunks
      end
  end.

Definition create_corpus_chunks (corpus_data : list pystr)
    (max_corpus_chunks : option Z) (start_index : Z) : CorpusChunks :=
  chunks_loop (length corpus_data) corpus_data max_corpus_chunks start_index [].

(** ** Per-query results *)

Record ChunkResult := {
  cr_chunk_index : Z;
  cr_closest_solution : option pystr;
  cr_score : Z
}.

(** [{"closest_solution": ..., "score": ..., "chunk_results": ...}];
    [chunk_results] is [None] unless [detailed_results]. *)
Record SearchResult := {
  closest_solution : option pystr;
  score : Z;
  chunk_results : option (list ChunkResult)
}.

Definition initial_result (detailed_results : bool) : SearchResult :=
  {| closest_solution := None; score := 0;
     chunk_results := if detailed_results then Some [] else None |}.

Definition append_chunk_result (r : SearchResult) (c : ChunkResult) : SearchResult :=
  {| closest_solution := closest_solution r; score := score r;
     chunk_results := option_map (fun l => l ++ [c]) (chunk_results r) |}.

(** [results.update({"closest_solution": match, "score": score})] *)
Definition set_best (r : SearchResult) (m : option pystr) (sc : Z) : SearchResult :=
  {| closest_solution := m; score := sc; chunk_results := chunk_results r |}.

(** A Python dict keyed by query text, in insertion order. *)
Definition Dict (V : Type) := list (pystr * V).

Fixpoint dict_set {V} (d : Dict V) (k : pystr) (v : V) : Dict V :=
  match d with
  | [] => [(k, v)]
  | (k', v') :: d' =>
      if list_eq_dec Z.eq_dec k k' then (k, v) :: d' else (k', v') :: dict_set d' k v
  end.

Fixpoint dict_get {V} (d : Dict V) (k : pystr) : option V :=
  match d with
  | [] => None
  | (k', v') :: d' => if list_eq_dec Z.eq_dec k k' then Some v' else dict_get d' k
  end.

(** [d[k] = f(d[k])] (every key used below is present). *)
Definition dict_modify {V} (d : Dict V) (k : pystr) (f : V -> V) : Dict V :=
  map (fun '(k', v) => if list_eq_dec Z.eq_dec k k' then (k', f v) else (k', v)) d.

(** [{k: v for k in keys}] *)
Definition dict_of_keys {V} (keys : list pystr) (v : V) : Dict V :=
  fold_left (fun d k => dict_set d k v) keys [].

(** ** [search_test_string_in_chunks] (single-query mode)

    One task per chunk is submitted before any result is collected; the
    results are then read in completion order ([as_completed]), which the
    caller supplies as a reordering of the chunks.  Each task computes
    [fast_fuzzy_match(test_str, chunk_str)].  Returns the result and the
    chunks whose results were read. *)
Fixpoint collect_single (test_str : pystr) (detailed_results : bool)
    (completed : CorpusChunks) (results : SearchResult) : SearchResult * CorpusChunks :=
  match completed with
  | [] => (results, [])
  | (idx, chunk_str) :: rest =>
      let '(m, sc) := fast_fuzzy_match test_str chunk_str in
      let results :=
        if detailed_results && py_truthy m
        then append_chunk_result results
               {| cr_chunk_index := idx; cr_closest_solution := m; cr_score := sc |}
        else results in
      if score results <? sc then
        let results := set_best results m sc in
        if sc =? 100 then (results, [(idx, chunk_str)])
        else let '(r, seen) := collect_single test_str detailed_results rest results in
             (r, (idx, chunk_str) :: seen)
      else let '(r, seen) := collect_single test_str detailed_results rest results in
           (r, (idx, chunk_str) :: seen)
  end.

Section Coordinators.

(** Completion order of the tasks of one shard ([as_completed]). *)
Variable completion_order : CorpusChunks -> CorpusChunks.

(** What a worker's [SharedMemory(name=SHM_NAME)] finds, given the region
    the coordinator published ([None]: the name cannot be attached). *)
Variable attach_view : bytes -> option bytes.

Definition search_test_string_in_chunks (test_str : pystr) (corpus_chunks : CorpusChunks)
    (detailed_results : bool) : SearchResult * CorpusChunks :=
  collect_single test_str detailed_results (completion_order corpus_chunks)
                 (initial_result detailed_results).

(** ** [search_multiple_test_strings_in_chunks] (batch mode)

    Per chunk: publish it, run one [fuzzy_match_shared_memory] task per
    query, read the results ([future.result()] re-raises a task's
    exception), close and unlink the region.  Tasks of one chunk update
    distinct dict entries (or equal ones with equal results), so the order
    in which they are read does not matter and is taken as submission
    order. *)
Fixpoint collect_multi (detailed_results : bool) (idx : Z)
    (outcomes : list (pystr * exc (option pystr * Z)))
    (results : Dict SearchResult) : exc (Dict SearchResult) :=
  match outcomes with
  | [] => Ok results
  | (test_str, outcome) :: rest =>
      match outcome with
      | Raise e => Raise e
      | Ok (m, sc) =>
      let upd (r : SearchResult) :=
        let r := if detailed_results && py_truthy m
                 then append_chunk_result r
                        {| cr_chunk_index := idx; cr_closest_solution := m; cr_score := sc |}
                 else r in
        if score r <? sc then set_best r m sc else r in
      collect_multi detailed_results idx rest (dict_modify results test_str upd)
      end
  end.

Definition process_chunk (test_strings : list pystr) (detailed_results : bool)
    (results : Dict SearchResult) (chunk : Z * pystr) : exc (Dict SearchResult) :=
  let '(idx, chunk_str) := chunk in
  region <- shm_publish chunk_str ;;
  let outcomes := map (fun test_str =>
                    (test_str, fuzzy_match_shared_memory (attach_view region) test_str))
                  test_strings in
  collect_multi detailed_results idx outcomes results.

Fixpoint process_chunks (test_strings : list pystr) (detailed_results : bool)
    (chunks : CorpusChunks) (results : Dict SearchResult) : exc (Dict SearchResult) :=
  match chunks with
  | [] => Ok results
  | c :: rest =>
      results <- process_chunk test_strings detailed_results results c ;;
      process_chunks test_strings detailed_results rest results
  end.

Definition search_multiple_test_strings_in_chunks (test_strings : list pystr)
    (corpus_chunks : CorpusChunks) (detailed_results : bool) : exc (Dict SearchResult) :=
  process_chunks test_strings detailed_results corpus_chunks
    (dict_of_keys test_strings (initial_result detailed_results)).

(** ** [fuzzy_match_main.py]: [main]

    [load_test_data] gives one string (one-line file) or a list; the
    shards are the documents of the corpus files, in order.  Each entry of
    [all_results] is [{"solution": test_str, ...}] and
    [all_results[k].update(result)] replaces its three result fields.
    Returns the chunks built for each shard visited and the final
    [all_results] (or the exception that ended the run). *)
Inductive TestData :=
| SingleTest (test_str : pystr)
| TestList (test_strings : list pystr).

Definition test_strings_of (t : TestData) : list pystr :=
  match t with SingleTest q => [q] | TestList qs => qs end.

Definition AllResults := Dict SearchResult.

Definition update_all (all_results : AllResults) (k : pystr) (r : SearchResult) : AllResults :=
  dict_modify all_results k (fun _ => r).

Fixpoint main_loop (test_data : TestData) (shards : list (list pystr))
    (num_chunks_to_read : option Z) (detailed_results : bool)
    (all_results : AllResults) (start_idx : Z) : list CorpusChunks * exc AllResults :=
  match shards with
  | [] => ([], Ok all_results)
  | corpus_data :: rest =>
      let chunks := create_corpus_chunks corpus_data num_chunks_to_read start_idx in
      let start_idx := start_idx + py_len chunks in
      match test_data with
      | SingleTest q =>
          let results := fst (search_test_string_in_chunks q chunks detailed_results) in
          let all_results := update_all all_results q results in
          if score results =? 100 then ([chunks], Ok all_results)
          else let '(tr, out) := main_loop test_data rest num_chunks_to_read
                                   detailed_results all_results start_idx in
               (chunks :: tr, out)
      | TestList qs =>
          match search_multiple_test_strings_in_chunks qs chunks detailed_results with
          | Raise e => ([chunks], Raise e)
          | Ok results =>
              let all_results :=
                fold_left (fun acc '(k, r) => update_all acc k r) results all_results in
              let '(tr, out) := main_loop test_data rest num_chunks_to_read
                                  detailed_results all_results start_idx in
              (chunks :: tr, out)
          end
      end
  end.

Definition main (test_data : TestData) (shards : list (list pystr))
    (num_chunks_to_read : option Z) (detailed_results : bool)
    : list CorpusChunks * exc AllResults :=
  main_loop test_data shards num_chunks_to_read detailed_results
            (dict_of_keys (test_strings_of test_data) (initial_result detailed_results)) 0.

End Coordinators.

(** The normal operating-system behaviour: a worker attaches the very
    region the coordinator published. *)
Definition os_attach (region : bytes) : option bytes := Some region.

(** ASCII literals as code-point strings, for concrete runs. *)
Definition pystr_of (s : string) : pystr :=
  map (fun c => Z.of_nat (nat_of_ascii c)) (list_ascii_of_string s).

(** ** The sibling driver [src/fuzzy_match_main.py]

    A self-contained variant of the pipeline: its own scorers, chunk
    builder (with a [chunk_size] parameter and a limit on the chunk index),
    searches and [main].  It reuses the shared building blocks above
    ([partial_ratio_alignment], [ratio], the window offsets, the shared
    memory steps, the result records). *)
Module TopLevel.

(** The exceptions the steps can raise: those of the shared steps, and
    [AttributeError] for [None.score]. *)
Inductive error :=
| PyError (e : py_exc)
| AttributeError.

Inductive res (A : Type) : Type :=
| ROk : A -> res A
| RErr : error -> res A.
Arguments ROk {A} _.
Arguments RErr {A} _.

(** [fast_fuzzy_match] (lines 48-59): no guard on [score_alignment]. *)
Definition fast_fuzzy_match (test_str chunk : pystr) : res (option pystr * Z) :=
  match partial_ratio_alignment test_str chunk with
  | None => RErr AttributeError
  | Some sa =>
      if Qlt_le_dec (inject_Z FUZZ_THRESHOLD) (sa_score sa) then
        ROk (Some (py_slice chunk (dest_start sa) (dest_end sa)), py_round (sa_score sa))
      else ROk (None, 0)
  end.

(** [slow_fuzzy_match] (lines 31-45): [best_score = score] keeps the
    unrounded ratio, which is also what is returned. *)
Definition slow_step (test_str chunk : pystr)
    (st : option pystr * Q) (i : Z) : option pystr * Q :=
  let '(best_match, best_score) := st in
  let w := slow_window test_str chunk i in
  let score := ratio w test_str in
  if Qlt_le_dec best_score score then (Some w, score) else (best_match, best_score).

Definition slow_fuzzy_match (test_str chunk : pystr) : option pystr * Q :=
  let '(best_match, best_score) :=
    fold_left (slow_step test_str chunk) (slow_offsets test_str chunk) (None, 0%Q) in
  if Qle_bool (inject_Z FUZZ_THRESHOLD) best_score then (best_match, best_score)
  else (None, 0%Q).

(** [fuzzy_match_shared_memory] (lines 62-71). *)
Definition fuzzy_match_shared_memory (region : option bytes) (test_str : pystr)
    : res (option pystr * Z) :=
  match shm_attach_decode region with
  | Raise e => RErr (PyError e)
  | Ok chunk => fast_fuzzy_match test_str chunk
  end.

(** [create_corpus_chunks(corpus_data, chunk_size, max_chunks, start_index)]
    (lines 104-119): the inner loop, then the outer loop, which stops when
    [chunk_index] reaches [max_chunks]. *)
Fixpoint fill_chunk (docs : list pystr) (chunk_size : Z) (str_builder : pystr)
    : pystr * list pystr :=
  match docs with
  | [] => (str_builder, [])
  | d :: rest =>
      if py_len str_builder <? chunk_size then fill_chunk rest chunk_size (str_builder ++ d)
      else (str_builder, docs)
  end.

Definition below_max_chunks (chunk_index : Z) (max_chunks : option Z) : bool :=
  match max_chunks with None => true | Some m => chunk_index <? m end.

Fixpoint chunks_loop (fuel : nat) (docs : list pystr) (chunk_size : Z)
    (max_chunks : option Z) (chunk_index : Z) : CorpusChunks :=
  match fuel with
  | O => []
  | S fuel' =>
      match docs with
      | [] => []
      | _ :: _ =>
          if below_max_chunks chunk_index max_chunks then
            let '(text, rest) := fill_chunk docs chunk_size [] in
            (chunk_index, text)
              :: chunks_loop fuel' rest chunk_size max_chunks (chunk_index + 1)
          else []
      end
  end.

(** For [chunk_size > 0] (the caller passes [CHUNK_SIZE]) every round
    consumes a document, so [len(corpus_data)] rounds suffice. *)
Definition create_corpus_chunks (corpus_data : list pystr) (chunk_size : Z)
    (max_chunks : option Z) (start_index : Z) : CorpusChunks :=
  chunks_loop (length corpus_data) corpus_data chunk_size max_chunks start_index.

(** The best results of [main]: [{"solution": test_data, ...}] in
    single-query mode, [{test_str: {...}}] in batch mode. *)
Inductive BestResults :=
| BestSingle (solution : pystr) (r : SearchResult)
| BestMulti (d : Dict SearchResult).

(** [best_results["chunk_results"].extend(...)] (both lists exist when
    [detailed_results]). *)
Definition extend_chunk_results (a b : option (list ChunkResult)) : option (list ChunkResult) :=
  match a, b with
  | Some x, Some y => Some (x ++ y)
  | _, _ => a
  end.

Section TopCoordinators.

(** Completion order of the tasks of one shard ([as_completed]). *)
Variable completion_order : CorpusChunks -> CorpusChunks.

(** What a worker's [SharedMemory(name=SHM_NAME)] finds. *)
Variable attach_view : bytes -> option bytes.

(** [search_test_string_in_chunks] (lines 122-160): a chunk result is
    recorded for every result read when [detailed_results]; the loop breaks
    when the best score becomes 100. *)
Fixpoint collect_single (test_str : pystr) (detailed_results : bool)
    (completed : CorpusChunks) (best_match : option pystr) (best_score : Z)
    (chunk_results : list ChunkResult) : res (option pystr * Z * list ChunkResult) :=
  match completed with
  | [] => ROk (best_match, best_score, chunk_results)
  | (idx, chunk_str) :: rest =>
      match fast_fuzzy_match test_str chunk_str with
      | RErr e => RErr e
      | ROk (m, sc) =>
          let chunk_results :=
            if detailed_results
            then chunk_results ++ [{| cr_chunk_index := idx; cr_closest_solution := m;
                                      cr_score := sc |}]
            else chunk_results in
          if best_score <? sc then
            if sc =? 100 then ROk (m, sc, chunk_results)
            else collect_single test_str detailed_results rest m sc chunk_results
          else collect_single test_str detailed_results rest best_match best_score
                              chunk_results
      end
  end.

Definition search_test_string_in_chunks (test_str : pystr) (corpus_chunks : CorpusChunks)
    (detailed_results : bool) : res SearchResult :=
  match collect_single test_str detailed_results (completion_order corpus_chunks)
                       None 0 [] with
  | RErr e => RErr e
  | ROk (m, sc, crs) =>
      ROk {| closest_solution := m; score := sc;
             chunk_results := if detailed_results then Some crs else None |}
  end.

(** [search_multiple_test_strings_in_chunks] (lines 163-204). *)
Fixpoint collect_multi (detailed_results : bool) (idx : Z)
    (outcomes : list (pystr * res (option pystr * Z)))
    (results : Dict SearchResult) : res (Dict SearchResult) :=
  match outcomes with
  | [] => ROk results
  | (test_str, outcome) :: rest =>
      match outcome with
      | RErr e => RErr e
      | ROk (m, sc) =>
          let upd (r : SearchResult) :=
            let r := if detailed_results && py_truthy m
                     then append_chunk_result r
                            {| cr_chunk_index := idx; cr_closest_solution := m;
                               cr_score := sc |}
                     else r in
            if score r <? sc then set_best r m sc else r in
          collect_multi detailed_results idx rest (dict_modify results test_str upd)
      end
  end.

Definition process_chunk (test_strings : list pystr) (detailed_results : bool)
    (results : Dict SearchResult) (chunk : Z * pystr) : res (Dict SearchResult) :=
  let '(idx, chunk_str) := chunk in
  match shm_publish chunk_str with
  | Raise e => RErr (PyError e)
  | Ok region =>
      collect_multi detailed_results idx
        (map (fun test_str =>
                (test_str, fuzzy_match_shared_memory (attach_view region) test_str))
             test_strings)
        results
  end.

Fixpoint process_chunks (test_strings : list pystr) (detailed_results : bool)
    (chunks : CorpusChunks) (results : Dict SearchResult) : res (Dict SearchResult) :=
  match chunks with
  | [] => ROk results
  | c :: rest =>
      match process_chunk test_strings detailed_results results c with
      | RErr e => RErr e
      | ROk results => process_chunks test_strings detailed_results rest results
      end
  end.

(** [overall_results]: every entry starts with an empty [chunk_results]. *)
Definition overall_initial : SearchResult :=
  {| closest_solution := None; score := 0; chunk_results := Some [] |}.

Definition search_multiple_test_strings_in_chunks (test_strings : list pystr)
    (corpus_chunks : CorpusChunks) (detailed_results : bool) : res (Dict SearchResult) :=
  process_chunks test_strings detailed_results corpus_chunks
    (dict_of_keys test_strings overall_initial).

(** [main] (lines 230-312), single-query update (lines 284-292). *)
Definition merge_single (detailed_results : bool) (best current : SearchResult) : SearchResult :=
  {| closest_solution := closest_solution current; score := score current;
     chunk_results := if detailed_results
                      then extend_chunk_results (chunk_results best) (chunk_results current)
                      else chunk_results best |}.

(** Batch update of one query (lines 298-306). *)
Definition merge_multi_entry (detailed_results : bool) (result : SearchResult)
    (best : SearchResult) : SearchResult :=
  let best := if score best <? score result
              then {| closest_solution := closest_solution result; score := score result;
                      chunk_results := chunk_results best |}
              else best in
  if detailed_results
  then {| closest_solution := closest_solution best; score := score best;
          chunk_results := extend_chunk_results (chunk_results best) (chunk_results result) |}
  else best.

Definition merge_multi (detailed_results : bool) (best current : Dict SearchResult)
    : Dict SearchResult :=
  fold_left (fun acc '(k, r) => dict_modify acc k (merge_multi_entry detailed_results r))
            current best.

(** The loop over the corpus files, whose mode does not change during the
    run ([is_single_test_string]); [None] is a file that cannot be read or
    parsed (logged, then [continue]).  Each loop returns, for each shard
    searched, its chunks and the best results after it, and the final best
    results (or the exception that ended the run). *)
Fixpoint main_loop_single (test_data : pystr) (shards : list (option (list pystr)))
    (num_chunks_to_read : option Z) (detailed_results : bool) (best : SearchResult)
    (start_idx : Z) : list (CorpusChunks * SearchResult) * res SearchResult :=
  match shards with
  | [] => ([], ROk best)
  | None :: rest =>
      main_loop_single test_data rest num_chunks_to_read detailed_results best start_idx
  | Some corpus_data :: rest =>
      let chunks := create_corpus_chunks corpus_data CHUNK_SIZE num_chunks_to_read start_idx in
      let start_idx := start_idx + py_len chunks in
      match search_test_string_in_chunks test_data chunks detailed_results with
      | RErr e => ([], RErr e)
      | ROk current =>
          if score best <? score current then
            let best := merge_single detailed_results best current in
            if score best =? 100 then ([(chunks, best)], ROk best)
            else
              let '(tr, out) := main_loop_single test_data rest num_chunks_to_read
                                  detailed_results best start_idx in
              ((chunks, best) :: tr, out)
          else
            let '(tr, out) := main_loop_single test_data rest num_chunks_to_read
                                detailed_results best start_idx in
            ((chunks, best) :: tr, out)
      end
  end.

Fixpoint main_loop_multi (test_data : list pystr) (shards : list (option (list pystr)))
    (num_chunks_to_read : option Z) (detailed_results : bool) (best : Dict SearchResult)
    (start_idx : Z) : list (CorpusChunks * Dict SearchResult) * res (Dict SearchResult) :=
  match shards with
  | [] => ([], ROk best)
  | None :: rest =>
      main_loop_multi test_data rest num_chunks_to_read detailed_results best start_idx
  | Some corpus_data :: rest =>
      let chunks := create_corpus_chunks corpus_data CHUNK_SIZE num_chunks_to_read start_idx in
      let start_idx := start_idx + py_len chunks in
      match search_multiple_test_strings_in_chunks test_data chunks detailed_results with
      | RErr e => ([], RErr e)
      | ROk current =>
          let best := merge_multi detailed_results best current in
          let '(tr, out) := main_loop_multi test_data rest num_chunks_to_read
                              detailed_results best start_idx in
          ((chunks, best) :: tr, out)
      end
  end.

Definition main (test_data : TestData) (shards : list (option (list pystr)))
    (num_chunks_to_read : option Z) (detailed_results : bool)
    : list (CorpusChunks * BestResults) * res BestResults :=
  match test_data with
  | SingleTest q =>
      let '(tr, out) := main_loop_single q shards num_chunks_to_read detailed_results
                          (initial_result detailed_results) 0 in
      (map (fun '(c, b) => (c, BestSingle q b)) tr,
       match out with ROk b => ROk (BestSingle q b) | RErr e => RErr e end)
  | TestList qs =>
      let '(tr, out) := main_loop_multi qs shards num_chunks_to_read detailed_results
                          (dict_of_keys qs (initial_result detailed_results)) 0 in
      (map (fun '(c, d) => (c, BestMulti d)) tr,
       match out with ROk d => ROk (BestMulti d) | RErr e => RErr e end)
  end.

End TopCoordinators.
End TopLevel.

(** ** Auxiliary definitions for the statements *)

(** [(start, x0), (start + 1, x1), ...] *)
Fixpoint number_from {A} (n : Z) (l : list A) : list (Z * A) :=
  match l with
  | [] => []
  | x :: l' => (n, x) :: number_from (n + 1) l'
  end.

Definition zrange (n : Z) (len : nat) : list Z :=
  map (fun j => n + Z.of_nat j) (seq 0 len).

Definition no_chunk_limit (max_corpus_chunks : option Z) : Prop :=
  match max_corpus_chunks with None => True | Some m => m = 0 end.

(** A chunk's documents: at least one, and those before the last one are
    shorter than [CHUNK_SIZE] together. *)
Definition chunk_docs_ok (g : list pystr) : Prop :=
  g <> [] /\ py_len (concat (removelast g)) < CHUNK_SIZE.

(** The closest solution and score stored for query [q] at the end of a
    run ([None] if the run raised). *)
Definition final_result (out : list CorpusChunks * exc AllResults) (q : pystr)
    : option (option pystr * Z) :=
  match snd out with
  | Ok d => option_map (fun r => (closest_solution r, score r)) (dict_get d q)
  | Raise _ => None
  end.

(** [r'] is at least as good as [r]: no lower score, and the same closest
    solution when the score is the same. *)
Definition improves (r r' : SearchResult) : Prop :=
  score r <= score r' /\ (score r' = score r -> closest_solution r' = closest_solution r).

(** Every query of [d] is still in [d'], with a result at least as good. *)
Definition dict_improves (d d' : Dict SearchResult) : Prop :=
  forall q r, dict_get d q = Some r -> exists r', dict_get d' q = Some r' /\ improves r r'.

Definition best_entries (b : TopLevel.BestResults) : Dict SearchResult :=
  match b with
  | TopLevel.BestSingle q r => [(q, r)]
  | TopLevel.BestMulti d => d
  end.

Definition best_improves (b b' : TopLevel.BestResults) : Prop :=
  dict_improves (best_entries b) (best_entries b').

(** The [best_results] the sibling [main] starts from. *)
Definition initial_best (test_data : TestData) (detailed_results : bool)
    : TopLevel.BestResults :=
  match test_data with
  | SingleTest q => TopLevel.BestSingle q (initial_result detailed_results)
  | TestList qs => TopLevel.BestMulti (dict_of_keys qs (initial_result detailed_results))
  end.

(** Each element is related to the next one by [R]. *)
Fixpoint chain {A} (R : A -> A -> Prop) (x : A) (l : list A) : Prop :=
  match l with
  | [] => True
  | y :: l' => R x y /\ chain R y l'
  end.

(** The [fast_fuzzy_match] result of a chunk [(idx, text)], as a chunk
    result, and its score. *)
Definition chunk_entry (q : pystr) (c : Z * pystr) : ChunkResult :=
  {| cr_chunk_index := fst c; cr_closest_solution := fst (fast_fuzzy_match q (snd c));
     cr_score := snd (fast_fuzzy_match q (snd c)) |}.

Definition chunk_score (q : pystr) (c : Z * pystr) : Z := snd (fast_fuzzy_match q (snd c)).

Definition chunk_matched (q : pystr) (c : Z * pystr) : bool :=
  py_truthy (fst (fast_fuzzy_match q (snd c))).

(** What reading the result [(m, sc)] of one chunk can do to a query's
    entry: the score becomes the larger of the two, and the closest
    solution is kept (with the score) or becomes [m] (with [sc]). *)
Definition entry_step (m : option pystr) (sc : Z) (r r' : SearchResult) : Prop :=
  score r' = Z.max (score r) sc /\
  ((closest_solution r' = closest_solution r /\ score r' = score r) \/
   (closest_solution r' = m /\ score r' = sc)).

(** A chunk the batch search can publish: code points, no surrogate, not
    empty. *)
Definition publishable (c : Z * pystr) : Prop :=
  valid_pystr (snd c) /\ existsb is_surrogate (snd c) = false /\ snd c <> [].

(** * Properties *)

(** ** Python ranges *)

Lemma py_range_step_bounds (start stop step i : Z) :
  0 < step -> In i (py_range_step start stop step) -> start <= i < stop.
Proof.
  intros Hs Hin. unfold py_range_step in Hin.
  apply in_map_iff in Hin as [k [<- Hk]].
  apply in_seq in Hk as [_ Hk]; simpl in Hk.
  set (n := (stop - start + step - 1) / step) in *.
  assert (Hn : Z.of_nat k < n).
  { lia. }
  assert (Hdiv : n * step <= stop - start + step - 1).
  { unfold n. rewrite Z.mul_comm. apply Z.mul_div_le. lia. }
  nia.
Qed.

Lemma py_range_step_empty (start stop step : Z) :
  0 < step -> stop <= start -> py_range_step start stop step = [].
Proof.
  intros Hs Hle. unfold py_range_step.
  replace (Z.to_nat ((stop - start + step - 1) / step)) with 0%nat; [reflexivity|].
  assert ((stop - start + step - 1) / step < 1) by (apply Z.div_lt_upper_bound; lia).
  lia.
Qed.

Lemma stride_pos (q : pystr) : 0 < stride q.
Proof. unfold stride. lia. Qed.

(** ** The sliding-window scorer's scan *)

Lemma slow_offsets_bounds (q c : pystr) (i : Z) :
  In i (slow_offsets q c) -> 0 <= i < py_len c - py_len q.
Proof.
  unfold slow_offsets. apply py_range_step_bounds, stride_pos.
Qed.

Lemma slow_offsets_short (q c : pystr) :
  (length c <= length q)%nat -> slow_offsets q c = [].
Proof.
  intros H. unfold slow_offsets, py_len.
  apply py_range_step_empty; [apply stride_pos | lia].
Qed.

(** C10: the sliding-window scorer scans only the offsets
    [0 <= i < len(chunk) - len(query)], never the last full window; on a
    chunk no longer than the query it compares nothing and returns
    [(None, 0)], also when the chunk equals the query; and a verbatim
    occurrence at the very end of a chunk is missed ("ab" at offset 2 of
    "xxab": only offsets 0 and 1 are scanned). *)
Theorem slow_fuzzy_match_skips_last_window :
  (forall q c i, In i (slow_offsets q c) -> 0 <= i < py_len c - py_len q) /\
  (forall q c, (length c <= length q)%nat -> slow_fuzzy_match q c = (None, 0)) /\
  slow_fuzzy_match (pystr_of "ab") (pystr_of "ab") = (None, 0) /\
  (slow_offsets (pystr_of "ab") (pystr_of "xxab") = [0; 1] /\
   slow_window (pystr_of "ab") (pystr_of "xxab") 2 = pystr_of "ab" /\
   slow_fuzzy_match (pystr_of "ab") (pystr_of "xxab") = (None, 0)).
Proof.
  split; [exact slow_offsets_bounds|].
  assert (Hshort : forall q c, (length c <= length q)%nat -> slow_fuzzy_match q c = (None, 0)).
  { intros q c H. unfold slow_fuzzy_match, slow_scan. rewrite slow_offsets_short by exact H.
    reflexivity. }
  split; [exact Hshort|].
  split; [apply Hshort; simpl; lia|].
  vm_compute. repeat split.
Qed.

(** ** Bounds of the similarity scores *)

Lemma lcs_le_l (a b : pystr) : (lcs a b <= length a)%nat.
Proof.
  revert b. induction a as [|x a IH]; intros b; simpl; [lia|].
  induction b as [|y b IHb]; [lia|].
  destruct (Z.eqb x y); [specialize (IH b); lia|].
  specialize (IH (y :: b)). lia.
Qed.

Lemma lcs_le_r (a b : pystr) : (lcs a b <= length b)%nat.
Proof.
  revert b. induction a as [|x a IH]; intros b; simpl; [lia|].
  induction b as [|y b IHb]; simpl; [lia|].
  destruct (Z.eqb x y); [specialize (IH b); lia|].
  specialize (IH (y :: b)). simpl in IH. lia.
Qed.

Lemma inject_Z_nat_nonneg (n : nat) : (0 <= inject_Z (Z.of_nat n))%Q.
Proof. change 0%Q with (inject_Z 0). rewrite <- Zle_Qle. lia. Qed.

Lemma ratio_bounds (a b : pystr) : (0 <= ratio a b <= 100)%Q.
Proof.
  unfold ratio.
  destruct (Nat.eqb (length a + length b) 0) eqn:E.
  - split; unfold Qle; simpl; lia.
  - apply Nat.eqb_neq in E.
    set (D := inject_Z (Z.of_nat (indel_distance a b))).
    set (L := inject_Z (Z.of_nat (length a + length b))).
    assert (HL : (0 < L)%Q).
    { unfold L. change 0%Q with (inject_Z 0). rewrite <- Zlt_Qlt. lia. }
    assert (HD : (0 <= D)%Q) by apply inject_Z_nat_nonneg.
    assert (HDL : (D <= L)%Q).
    { unfold D, L. rewrite <- Zle_Qle. unfold indel_distance. lia. }
    assert (H0 : (0 <= D / L)%Q).
    { apply Qle_shift_div_l; [exact HL|]. lra. }
    assert (H1 : (D / L <= 1)%Q).
    { apply Qle_shift_div_r; [exact HL|]. lra. }
    split; lra.
Qed.

Lemma Qfloor_inject_Z (z : Z) : Qfloor (inject_Z z) = z.
Proof. unfold Qfloor, inject_Z. simpl. apply Z.div_1_r. Qed.

Lemma py_round_cases (x : Q) :
  py_round x = Qfloor x \/ py_round x = Qfloor x + 1.
Proof.
  unfold py_round.
  destruct (Qlt_le_dec _ _); [now left|].
  destruct (Qlt_le_dec _ _); [now right|].
  destruct (Z.even _); [now left|now right].
Qed.

(** Rounding stays between integer bounds. *)
Lemma py_round_lower (lo : Z) (x : Q) : (inject_Z lo <= x)%Q -> lo <= py_round x.
Proof.
  intros H. pose proof (Qfloor_resp_le _ _ H) as Hf.
  rewrite Qfloor_inject_Z in Hf.
  destruct (py_round_cases x) as [-> | ->]; lia.
Qed.

Lemma py_round_upper (hi : Z) (x : Q) : (x <= inject_Z hi)%Q -> py_round x <= hi.
Proof.
  intros H. pose proof (Qfloor_resp_le _ _ H) as Hf.
  rewrite Qfloor_inject_Z in Hf.
  destruct (Z.eq_dec (Qfloor x) hi) as [Heq|Hne].
  - pose proof (Qfloor_le x) as Hle.
    assert (Hx : (x == inject_Z (Qfloor x))%Q).
    { rewrite Heq in *. apply Qle_antisym; assumption. }
    unfold py_round.
    destruct (Qlt_le_dec _ _) as [|Hge]; [lia|].
    exfalso. rewrite <- Hx in Hge.
    assert (Hz : (x - x == 0)%Q) by ring. rewrite Hz in Hge.
    unfold Qle in Hge; simpl in Hge; lia.
  - destruct (py_round_cases x) as [-> | ->]; lia.
Qed.

Lemma py_round_range (lo hi : Z) (x : Q) :
  (inject_Z lo <= x <= inject_Z hi)%Q -> lo <= py_round x <= hi.
Proof.
  intros [H1 H2]. split; [apply py_round_lower | apply py_round_upper]; assumption.
Qed.

Lemma pr_scan_bounds (s1 s2 : pystr) (cands : list (nat * nat * Z)) (res : ScoreAlignment) :
  (0 <= sa_score res <= 100)%Q ->
  match pr_scan s1 s2 cands res with inl r | inr r => (0 <= sa_score r <= 100)%Q end.
Proof.
  revert res. induction cands as [|[[ds de] k] cands IH]; intros res Hres; simpl; [exact Hres|].
  destruct (negb _); [apply IH, Hres|].
  destruct (Qlt_le_dec _ _); [|apply IH, Hres].
  destruct (Qeq_bool _ _); [simpl; apply ratio_bounds|].
  apply IH. simpl. apply ratio_bounds.
Qed.

Lemma partial_ratio_impl_bounds (s1 s2 : pystr) :
  (0 <= sa_score (partial_ratio_impl s1 s2) <= 100)%Q.
Proof.
  unfold partial_ratio_impl.
  match goal with |- context [pr_scan ?a ?b ?c ?d] =>
    pose proof (pr_scan_bounds a b c d) as H; destruct (pr_scan a b c d) end;
  apply H; simpl; split; unfold Qle; simpl; lia.
Qed.

Lemma partial_ratio_alignment_bounds (s1 s2 : pystr) (sa : ScoreAlignment) :
  partial_ratio_alignment s1 s2 = Some sa -> (0 <= sa_score sa <= 100)%Q.
Proof.
  unfold partial_ratio_alignment.
  destruct (Nat.eqb _ 0 && Nat.eqb _ 0).
  { intros [= <-]. simpl. split; unfold Qle; simpl; lia. }
  destruct (if Nat.leb _ _ then _ else _) as [shorter longer].
  destruct (negb _ && _).
  - destruct (Qlt_le_dec _ _);
      (destruct (Qlt_le_dec _ _); [discriminate|];
       destruct (Nat.leb _ _); intros [= <-]; apply partial_ratio_impl_bounds).
  - destruct (Qlt_le_dec _ _); [discriminate|].
    destruct (Nat.leb _ _); intros [= <-]; apply partial_ratio_impl_bounds.
Qed.

Lemma slow_scan_inv (q c : pystr) (offs : list Z) (bm : option pystr) (bs : Z) :
  0 <= bs <= 100 -> (bm = None -> bs = 0) ->
  let '(bm', bs') := fold_left (slow_step q c) offs (bm, bs) in
  0 <= bs' <= 100 /\ (bm' = None -> bs' = 0).
Proof.
  revert bm bs. induction offs as [|i offs IH]; intros bm bs H1 H2; simpl; [auto|].
  unfold slow_step at 1.
  destruct (Qlt_le_dec _ _); apply IH; auto.
  - apply py_round_range. pose proof (ratio_bounds (slow_window q c i) q).
    split; change (inject_Z 0) with 0%Q; change (inject_Z 100) with 100%Q; lra.
  - discriminate.
Qed.

Lemma fast_fuzzy_match_result (q c : pystr) :
  let '(m, s) := fast_fuzzy_match q c in 0 <= s <= 100 /\ (m = None <-> s = 0).
Proof.
  unfold fast_fuzzy_match.
  destruct (partial_ratio_alignment q c) as [sa|] eqn:E; [|split; [lia|tauto]].
  destruct (Qlt_le_dec _ _) as [Hlt|]; [|split; [lia|tauto]].
  pose proof (partial_ratio_alignment_bounds _ _ _ E) as [_ Hhi].
  assert (Hr : 60 <= py_round (sa_score sa) <= 100).
  { apply py_round_range. split; [apply Qlt_le_weak, Hlt | exact Hhi]. }
  split; [lia|]. split; [discriminate | lia].
Qed.

(** C9: both scorers return a score in [[0, 100]], the matched substring is
    [None] exactly when the score is 0, and a best score below the
    threshold (the alignment score for [fast_fuzzy_match], the rounded best
    window score for [slow_fuzzy_match]) gives [(None, 0)]. *)
Theorem scorers_result_invariant (q c : pystr) :
  (let '(m, s) := fast_fuzzy_match q c in 0 <= s <= 100 /\ (m = None <-> s = 0)) /\
  (let '(m, s) := slow_fuzzy_match q c in 0 <= s <= 100 /\ (m = None <-> s = 0)) /\
  (forall sa, partial_ratio_alignment q c = Some sa ->
     (sa_score sa < inject_Z FUZZ_THRESHOLD)%Q -> fast_fuzzy_match q c = (None, 0)) /\
  (snd (slow_scan q c) < FUZZ_THRESHOLD -> slow_fuzzy_match q c = (None, 0)).
Proof.
  split; [|split; [|split]].
  - apply fast_fuzzy_match_result.
  - unfold slow_fuzzy_match, slow_scan.
    pose proof (slow_scan_inv q c (slow_offsets q c) None 0 ltac:(lia) (fun _ => eq_refl)) as Hinv.
    destruct (fold_left _ _ _) as [bm bs].
    destruct Hinv as [Hb Hn].
    destruct (bs >=? FUZZ_THRESHOLD) eqn:Ht; [|split; [lia|tauto]].
    unfold FUZZ_THRESHOLD in Ht.
    split; [exact Hb|]. split; [intros; apply Hn; assumption | lia].
  - intros sa E Hlt. unfold fast_fuzzy_match. rewrite E.
    destruct (Qlt_le_dec _ _) as [Hgt|]; [|reflexivity].
    exfalso. apply (Qlt_irrefl (sa_score sa)). eapply Qlt_trans; eassumption.
  - unfold slow_fuzzy_match. destruct (slow_scan q c) as [bm bs]. simpl. intros H.
    destruct (bs >=? FUZZ_THRESHOLD) eqn:Ht; [|reflexivity].
    apply Z.geb_le in Ht. lia.
Qed.

(** ** Rounding and the threshold tests *)

Lemma py_round_inject_Z (z : Z) : py_round (inject_Z z) = z.
Proof.
  unfold py_round. rewrite Qfloor_inject_Z.
  destruct (Qlt_le_dec _ _) as [|H]; [reflexivity|].
  exfalso. assert (Hz : (inject_Z z - inject_Z z == 0)%Q) by ring.
  rewrite Hz in H. unfold Qle in H; simpl in H; lia.
Qed.

Lemma py_round_mono (x y : Q) : (x <= y)%Q -> py_round x <= py_round y.
Proof.
  intros Hxy. pose proof (Qfloor_resp_le _ _ Hxy) as Hf.
  destruct (Z_lt_le_dec (Qfloor x) (Qfloor y)) as [Hlt|Hge].
  - destruct (py_round_cases x) as [-> | ->];
      destruct (py_round_cases y) as [-> | ->]; lia.
  - assert (Heq : Qfloor y = Qfloor x) by lia.
    unfold py_round. rewrite Heq.
    set (f := Qfloor x).
    destruct (Z.even f);
      repeat destruct (Qlt_le_dec _ _); try lia; exfalso; lra.
Qed.

Lemma py_round_compat (x y : Q) : (x == y)%Q -> py_round x = py_round y.
Proof.
  intros H. apply Z.le_antisymm; apply py_round_mono; rewrite H; apply Qle_refl.
Qed.

(** The loop's [best_score] is the rounded best window score. *)
Lemma slow_scan_round_best (q c : pystr) (offs : list Z) (bm : option pystr) (bs : Z) (M : Q) :
  bs = py_round M ->
  snd (fold_left (slow_step q c) offs (bm, bs)) =
  py_round (fold_left Qmax (map (fun i => ratio (slow_window q c i) q) offs) M).
Proof.
  revert bm bs M. induction offs as [|i offs IH]; intros bm bs M HM; simpl; [exact HM|].
  unfold slow_step at 1.
  set (s := ratio (slow_window q c i) q).
  destruct (Qlt_le_dec (inject_Z bs) s) as [Hlt|Hge]; apply IH;
    destruct (Q.max_spec M s) as [[HMs Hmax] | [HsM Hmax]];
    rewrite (py_round_compat _ _ Hmax); try reflexivity; try exact HM.
  - pose proof (py_round_mono _ _ HsM).
    pose proof (py_round_mono _ _ (Qlt_le_weak _ _ Hlt)).
    rewrite py_round_inject_Z in *. lia.
  - pose proof (py_round_mono _ _ (Qlt_le_weak _ _ HMs)).
    pose proof (py_round_mono _ _ Hge).
    rewrite py_round_inject_Z in *. lia.
Qed.

Lemma slow_scan_best (q c : pystr) :
  snd (slow_scan q c) = py_round (slow_window_best q c).
Proof.
  unfold slow_scan, slow_window_best. apply slow_scan_round_best.
  symmetry. apply (py_round_inject_Z 0).
Qed.

(** C5: the alignment scorer accepts (returns something other than
    [(None, 0)]) exactly when its alignment score is strictly above
    [FUZZ_THRESHOLD]; the sliding-window scorer exactly when its rounded
    best window score is at least [FUZZ_THRESHOLD]; so a best score equal
    to the threshold is rejected by the first and accepted by the second. *)
Theorem scorers_threshold_asymmetry (q c : pystr) :
  (fast_fuzzy_match q c <> (None, 0) <->
     exists sa, partial_ratio_alignment q c = Some sa /\
                (inject_Z FUZZ_THRESHOLD < sa_score sa)%Q) /\
  (slow_fuzzy_match q c <> (None, 0) <->
     FUZZ_THRESHOLD <= py_round (slow_window_best q c)) /\
  (forall sa, partial_ratio_alignment q c = Some sa ->
     (sa_score sa == inject_Z FUZZ_THRESHOLD)%Q -> fast_fuzzy_match q c = (None, 0)) /\
  ((slow_window_best q c == inject_Z FUZZ_THRESHOLD)%Q ->
     slow_fuzzy_match q c <> (None, 0)).
Proof.
  assert (Hslow : slow_fuzzy_match q c <> (None, 0) <->
                  FUZZ_THRESHOLD <= py_round (slow_window_best q c)).
  { rewrite <- slow_scan_best. unfold slow_fuzzy_match.
    destruct (slow_scan q c) as [bm bs]. simpl.
    destruct (bs >=? FUZZ_THRESHOLD) eqn:Ht.
    - apply Z.geb_le in Ht. split; [intros _; exact Ht|].
      intros H [=]. unfold FUZZ_THRESHOLD in *. lia.
    - rewrite Z.geb_leb, Z.leb_gt in Ht. split; [intros H; exfalso; apply H; reflexivity|lia]. }
  split; [|split; [exact Hslow|split]].
  - unfold fast_fuzzy_match.
    destruct (partial_ratio_alignment q c) as [sa|].
    + destruct (Qlt_le_dec _ _) as [Hlt|Hge].
      * split; [intros _; exists sa; split; [reflexivity|exact Hlt]|discriminate].
      * split; [intros H; exfalso; apply H; reflexivity|].
        intros [sa' [[= <-] Hlt]]. exfalso. apply (Qlt_not_le _ _ Hlt Hge).
    + split; [intros H; exfalso; apply H; reflexivity|].
      intros [sa' [H _]]; discriminate.
  - intros sa E Heq. unfold fast_fuzzy_match. rewrite E.
    destruct (Qlt_le_dec _ _) as [Hlt|]; [|reflexivity].
    exfalso. rewrite Heq in Hlt. apply (Qlt_irrefl _ Hlt).
  - intros Heq. apply Hslow. rewrite (py_round_compat _ _ Heq), py_round_inject_Z. lia.
Qed.

(** ** A perfect score means an exact match *)

Lemma lcs_cons_cons (x y : Z) (a b : pystr) :
  lcs (x :: a) (y :: b) =
  if Z.eqb x y then S (lcs a b) else Nat.max (lcs a (y :: b)) (lcs (x :: a) b).
Proof. reflexivity. Qed.

Lemma lcs_refl (a : pystr) : lcs a a = length a.
Proof.
  induction a as [|x a IH]; [reflexivity|].
  rewrite lcs_cons_cons, Z.eqb_refl, IH. reflexivity.
Qed.

Lemma lcs_full (a b : pystr) :
  lcs a b = length a -> length a = length b -> a = b.
Proof.
  revert b. induction a as [|x a IH]; intros b H Hlen.
  - destruct b; [reflexivity|discriminate].
  - destruct b as [|y b]; [discriminate|].
    rewrite lcs_cons_cons in H. simpl in Hlen.
    destruct (Z.eqb x y) eqn:E.
    + apply Z.eqb_eq in E. subst y. f_equal.
      change (length (x :: a)) with (S (length a)) in H. apply IH; lia.
    + exfalso. pose proof (lcs_le_l a (y :: b)). pose proof (lcs_le_r (x :: a) b).
      change (length (x :: a)) with (S (length a)) in H. lia.
Qed.

Lemma ratio_refl (a : pystr) : (ratio a a == 100)%Q.
Proof.
  unfold ratio, indel_distance. rewrite lcs_refl.
  destruct (Nat.eqb _ 0); [reflexivity|].
  replace (length a + length a - 2 * length a)%nat with 0%nat by lia.
  unfold Qdiv. simpl. ring.
Qed.

Lemma ratio_eq_100 (a b : pystr) : Qeq_bool (ratio a b) 100 = true -> a = b.
Proof.
  intros H. apply Qeq_bool_eq in H. unfold ratio in H.
  destruct (Nat.eqb (length a + length b) 0) eqn:E.
  - apply Nat.eqb_eq in E. destruct a, b; simpl in E; try lia. reflexivity.
  - apply Nat.eqb_neq in E.
    set (L := inject_Z (Z.of_nat (length a + length b))) in H.
    set (D := inject_Z (Z.of_nat (indel_distance a b))) in H.
    assert (HL : ~ (L == 0)%Q).
    { unfold L. change 0%Q with (inject_Z 0). rewrite inject_Z_injective. lia. }
    set (X := (D / L)%Q) in H.
    assert (HX : (X == 0)%Q) by lra.
    assert (HD : (D == 0)%Q).
    { rewrite <- (Qmult_div_r D L HL). fold X. rewrite HX. ring. }
    unfold D in HD. change 0%Q with (inject_Z 0) in HD.
    rewrite inject_Z_injective in HD. unfold indel_distance in HD.
    pose proof (lcs_le_l a b). pose proof (lcs_le_r a b).
    apply lcs_full; lia.
Qed.

Lemma Qeq_bool_false_lt (r : Q) : Qeq_bool r 100 = false -> (r <= 100)%Q -> (r < 100)%Q.
Proof.
  intros Hne Hle. apply Qeq_bool_neq in Hne.
  destruct (Qle_lt_or_eq _ _ Hle) as [|Heq]; [assumption|contradiction].
Qed.

(** The scan ends early only on a window scoring 100, which is then [s1]. *)
Lemma pr_scan_inr (s1 s2 : pystr) (cands : list (nat * nat * Z)) (res r : ScoreAlignment) :
  pr_scan s1 s2 cands res = inr r ->
  Qeq_bool (sa_score r) 100 = true /\ py_slice s2 (dest_start r) (dest_end r) = s1.
Proof.
  revert res. induction cands as [|[[ds de] k] cands IH]; intros res H; simpl in H;
    [discriminate|].
  destruct (negb _); [eapply IH; exact H|].
  destruct (Qlt_le_dec _ _); [|eapply IH; exact H].
  destruct (Qeq_bool (ratio s1 (py_slice s2 ds de)) 100) eqn:E; [|eapply IH; exact H].
  injection H as <-. simpl. split; [exact E|].
  symmetry. apply ratio_eq_100, E.
Qed.

(** A candidate that is kept and scores 100 makes the scan end early. *)
Lemma pr_scan_reaches_100 (s1 s2 : pystr) (cands : list (nat * nat * Z))
    (res : ScoreAlignment) (ds de : nat) (k : Z) (ch : Z) :
  In (ds, de, k) cands -> py_get s2 k = Some ch -> In ch s1 ->
  py_slice s2 ds de = s1 -> (sa_score res < 100)%Q ->
  exists r, pr_scan s1 s2 cands res = inr r.
Proof.
  intros Hin Hget Hch Hsl. revert res.
  induction cands as [|[[ds' de'] k'] cands IH]; intros res Hres; [destruct Hin|].
  simpl.
  destruct Hin as [Heq | Hin].
  - injection Heq as -> -> ->. rewrite Hget.
    assert (Hk : existsb (Z.eqb ch) s1 = true).
    { apply existsb_exists. exists ch. split; [exact Hch|apply Z.eqb_refl]. }
    rewrite Hk. simpl. rewrite Hsl.
    pose proof (ratio_refl s1) as H100.
    destruct (Qlt_le_dec _ _) as [|Hge].
    + apply Qeq_bool_iff in H100. rewrite H100. eexists; reflexivity.
    + exfalso. rewrite H100 in Hge. apply (Qlt_not_le _ _ Hres Hge).
  - destruct (negb _); [apply IH; assumption|].
    destruct (Qlt_le_dec _ _); [|apply IH; assumption].
    destruct (Qeq_bool _ _) eqn:E; [eexists; reflexivity|].
    apply IH; [assumption|]. simpl.
    apply Qeq_bool_false_lt; [exact E | apply ratio_bounds].
Qed.

Lemma nth_error_mid (pre q post : pystr) (j : nat) :
  (j < length q)%nat -> nth_error (pre ++ q ++ post) (length pre + j) = nth_error q j.
Proof.
  intros Hj. rewrite nth_error_app2 by lia.
  replace (length pre + j - length pre)%nat with j by lia.
  apply nth_error_app1, Hj.
Qed.

Lemma py_slice_mid (pre q post : pystr) (e : nat) :
  (length pre + length q <= e)%nat -> (e <= length pre + length q + length post)%nat ->
  e = (length pre + length q)%nat \/ post = [] ->
  py_slice (pre ++ q ++ post) (length pre) e = q.
Proof.
  intros H1 H2 H3. unfold py_slice.
  rewrite skipn_app, skipn_all, Nat.sub_diag. simpl.
  rewrite firstn_app.
  replace (e - length pre - length q)%nat with (e - length pre - length q)%nat by reflexivity.
  rewrite firstn_all2 by lia.
  destruct H3 as [-> | ->].
  - replace (length pre + length q - length pre - length q)%nat with 0%nat by lia.
    apply app_nil_r.
  - rewrite firstn_nil. apply app_nil_r.
Qed.

(** The scan of [partial_ratio_impl] over a chunk that contains the
    needle verbatim ends on a window equal to the needle. *)
Lemma partial_ratio_impl_verbatim (q pre post : pystr) :
  q <> [] ->
  let r := partial_ratio_impl q (pre ++ q ++ post) in
  Qeq_bool (sa_score r) 100 = true /\
  py_slice (pre ++ q ++ post) (dest_start r) (dest_end r) = q.
Proof.
  intros Hq. unfold partial_ratio_impl.
  set (c := pre ++ q ++ post).
  set (len1 := length q). set (len2 := length c).
  assert (Hlen2 : len2 = (length pre + len1 + length post)%nat).
  { unfold len2, len1, c. rewrite !length_app. lia. }
  assert (H1 : (1 <= len1)%nat) by (unfold len1; destruct q; [contradiction|simpl; lia]).
  set (init := {| sa_score := 0%Q; src_start := 0%nat; src_end := len1;
                  dest_start := 0%nat; dest_end := len1 |}).
  assert (Hex : exists r, pr_scan q c (pr_prefix_cands len1 ++ pr_window_cands len1 len2
                                        ++ pr_suffix_cands len1 len2) init = inr r).
  { destruct post as [|z post'] eqn:Hpost.
    - (* the occurrence ends the chunk: a suffix window *)
      simpl in Hlen2.
      destruct (nth_error q 0) as [ch|] eqn:Hch;
        [|apply nth_error_None in Hch; lia].
      apply (pr_scan_reaches_100 q c _ init (length pre) len2 (Z.of_nat (length pre)) ch).
      + apply in_or_app; right; apply in_or_app; right.
        unfold pr_suffix_cands. apply in_map_iff. exists (length pre). split; [reflexivity|].
        apply in_seq. lia.
      + unfold py_get. rewrite (proj2 (Z.ltb_ge _ 0)) by lia. rewrite Nat2Z.id.
        unfold c. rewrite <- (Nat.add_0_r (length pre)), nth_error_mid by lia. exact Hch.
      + eapply nth_error_In; exact Hch.
      + unfold c. apply py_slice_mid; [lia|lia|right; reflexivity].
      + simpl. unfold Qlt; simpl; lia.
    - (* a full window *)
      destruct (nth_error q (len1 - 1)) as [ch|] eqn:Hch;
        [|apply nth_error_None in Hch; unfold len1 in *; lia].
      apply (pr_scan_reaches_100 q c _ init (length pre) (length pre + len1)
               (Z.of_nat (length pre + len1) - 1) ch).
      + apply in_or_app; right; apply in_or_app; left.
        unfold pr_window_cands. apply in_map_iff. exists (length pre). split; [reflexivity|].
        apply in_seq. simpl in Hlen2. lia.
      + unfold py_get. rewrite (proj2 (Z.ltb_ge _ 0)) by lia.
        replace (Z.to_nat (Z.of_nat (length pre + len1) - 1)) with (length pre + (len1 - 1))%nat
          by lia.
        unfold c. rewrite nth_error_mid by (unfold len1 in *; lia). exact Hch.
      + eapply nth_error_In; exact Hch.
      + unfold c. apply py_slice_mid; [unfold len1; lia | simpl; unfold len1; lia | left; reflexivity].
      + simpl. unfold Qlt; simpl; lia. }
  destruct Hex as [r Hr]. rewrite Hr. exact (pr_scan_inr _ _ _ _ _ Hr).
Qed.

(** C4: when a non-empty query occurs verbatim in a chunk, the alignment
    scorer returns score 100 and exactly the query as the match. *)
Theorem fast_fuzzy_match_verbatim (q pre post : pystr) :
  q <> [] -> fast_fuzzy_match q (pre ++ q ++ post) = (Some q, 100).
Proof.
  intros Hq.
  destruct (partial_ratio_impl_verbatim q pre post Hq) as [H100 Hsl].
  set (c := pre ++ q ++ post) in *.
  assert (Hlen1 : Nat.eqb (length q) 0 = false).
  { apply Nat.eqb_neq. destruct q; [contradiction|discriminate]. }
  assert (Hle : Nat.leb (length q) (length c) = true).
  { apply Nat.leb_le. unfold c. rewrite !length_app. lia. }
  unfold fast_fuzzy_match, partial_ratio_alignment.
  rewrite Hlen1, Hle. simpl andb. cbv iota beta.
  set (r := partial_ratio_impl q c) in *.
  rewrite H100. cbv beta iota zeta delta [andb negb].
  apply Qeq_bool_iff in H100.
  destruct (Qlt_le_dec (sa_score r) 0) as [Hlt|_].
  { exfalso. rewrite H100 in Hlt. unfold Qlt in Hlt; simpl in Hlt; lia. }
  destruct (Qlt_le_dec _ _) as [_|Hge].
  - rewrite Hsl, (py_round_compat _ _ H100). reflexivity.
  - exfalso. rewrite H100 in Hge. unfold Qle in Hge; simpl in Hge; lia.
Qed.

Lemma fast_fuzzy_match_verbatim_witness :
  pystr_of "abc" <> [] /\
  fast_fuzzy_match (pystr_of "abc") (pystr_of "xy" ++ pystr_of "abc" ++ pystr_of "z")
  = (Some (pystr_of "abc"), 100).
Proof.
  split; [discriminate|].
  apply fast_fuzzy_match_verbatim. discriminate.
Defined.

(** ** The chunk builder *)

Lemma zrange_cons (n : Z) (len : nat) : zrange n (S len) = n :: zrange (n + 1) len.
Proof.
  unfold zrange. simpl. f_equal; [lia|].
  rewrite <- seq_shift, map_map. apply map_ext. intros. lia.
Qed.

Lemma zrange_app (n : Z) (a b : nat) :
  zrange n a ++ zrange (n + Z.of_nat a) b = zrange n (a + b).
Proof.
  revert n. induction a as [|a IH]; intros n.
  - simpl. f_equal. lia.
  - rewrite Nat.add_succ_l, !zrange_cons. simpl. f_equal.
    rewrite <- IH. do 2 f_equal. lia.
Qed.

Lemma number_from_fst {A} (n : Z) (l : list A) :
  map fst (number_from n l) = zrange n (length l).
Proof.
  revert n. induction l as [|x l IH]; intros n; [reflexivity|].
  simpl. rewrite zrange_cons, IH. reflexivity.
Qed.

Lemma number_from_snd {A} (n : Z) (l : list A) : map snd (number_from n l) = l.
Proof.
  revert n. induction l as [|x l IH]; intros n; [reflexivity|]. simpl. f_equal. apply IH.
Qed.

Lemma number_from_length {A} (n : Z) (l : list A) : length (number_from n l) = length l.
Proof.
  revert n. induction l as [|x l IH]; intros n; [reflexivity|]. simpl. f_equal. apply IH.
Qed.

Lemma fill_chunk_spec (docs g : list pystr) :
  py_len (concat (removelast g)) < CHUNK_SIZE ->
  exists taken rest,
    fill_chunk docs (concat g) = (concat (g ++ taken), rest) /\
    docs = taken ++ rest /\
    py_len (concat (removelast (g ++ taken))) < CHUNK_SIZE /\
    (g = [] -> docs <> [] -> taken <> []).
Proof.
  revert g. induction docs as [|d docs IH]; intros g Hg.
  - exists [], []. rewrite app_nil_r. repeat split; auto.
  - simpl. destruct (py_len (concat g) <? CHUNK_SIZE) eqn:Hlt.
    + apply Z.ltb_lt in Hlt.
      destruct (IH (g ++ [d])) as (taken & rest & Hf & Hd & Hok & _).
      { rewrite removelast_last. exact Hlt. }
      exists (d :: taken), rest.
      replace (concat g ++ d) with (concat (g ++ [d]))
        by (rewrite concat_app; simpl; rewrite app_nil_r; reflexivity).
      rewrite Hf, <- app_assoc. simpl.
      repeat split; [rewrite Hd; reflexivity|rewrite <- app_assoc in Hok; exact Hok|].
      intros _ _; discriminate.
    + exists [], (d :: docs). rewrite app_nil_r.
      repeat split; [exact Hg|].
      intros -> _. exfalso. simpl in Hlt. discriminate.
Qed.

Lemma chunks_loop_spec (fuel : nat) (docs : list pystr) (max_corpus_chunks : option Z)
    (start_index : Z) (acc : CorpusChunks) :
  exists groups rest,
    chunks_loop fuel docs max_corpus_chunks start_index acc
      = acc ++ number_from (py_len acc + start_index) (map (@concat Z) groups) /\
    docs = concat groups ++ rest /\
    Forall chunk_docs_ok groups /\
    ((length docs <= fuel)%nat -> no_chunk_limit max_corpus_chunks -> rest = []).
Proof.
  revert docs acc. induction fuel as [|fuel IH]; intros docs acc.
  - exists [], docs. simpl. rewrite app_nil_r. repeat split; auto.
    intros Hl _. destruct docs; [reflexivity|simpl in Hl; lia].
  - destruct docs as [|d ds].
    + exists [], []. simpl. rewrite app_nil_r. repeat split; auto.
    + cbn [chunks_loop].
      destruct (below_max_chunks acc max_corpus_chunks) eqn:Hb.
      * destruct (fill_chunk_spec (d :: ds) [] ltac:(unfold py_len, CHUNK_SIZE; simpl; lia))
          as (taken & rest1 & Hf & Hd & Hok & Hne).
        change (concat []) with (@nil Z) in Hf. rewrite app_nil_l in Hf.
        rewrite Hf. cbv beta iota.
        destruct (IH rest1 (acc ++ [(py_len acc + start_index, concat taken)]))
          as (groups & rest & Hc & Hr & Hg & Hfuel).
        exists (taken :: groups), rest.
        split; [|split; [|split]].
        -- refine (eq_trans Hc _). rewrite <- app_assoc. simpl. do 3 f_equal.
           unfold py_len. rewrite length_app. simpl. lia.
        -- rewrite Hd, Hr. simpl. apply app_assoc.
        -- constructor; [|exact Hg].
           split; [apply Hne; [reflexivity|discriminate]|exact Hok].
        -- intros Hl Hn. apply Hfuel; [|exact Hn].
           assert (Hlen : length (d :: ds) = (length taken + length rest1)%nat)
             by (rewrite Hd, length_app; reflexivity).
           destruct taken; [exfalso; exact (Hne eq_refl ltac:(discriminate) eq_refl)|].
           simpl in Hlen, Hl. lia.
      * exists [], (d :: ds). rewrite app_nil_r. repeat split; auto.
        intros _ Hn. exfalso.
        destruct max_corpus_chunks as [m|]; simpl in Hn, Hb; [|discriminate].
        subst m. discriminate.
Qed.

Lemma concat_map_concat {A} (groups : list (list (list A))) :
  concat (map (@concat A) groups) = concat (concat groups).
Proof.
  induction groups as [|g gs IH]; [reflexivity|].
  simpl. rewrite concat_app, IH. reflexivity.
Qed.

Lemma create_corpus_chunks_spec (docs : list pystr) (max_corpus_chunks : option Z)
    (start_index : Z) :
  exists groups rest,
    create_corpus_chunks docs max_corpus_chunks start_index
      = number_from start_index (map (@concat Z) groups) /\
    docs = concat groups ++ rest /\
    Forall chunk_docs_ok groups /\
    (no_chunk_limit max_corpus_chunks -> rest = []).
Proof.
  unfold create_corpus_chunks.
  destruct (chunks_loop_spec (length docs) docs max_corpus_chunks start_index [])
    as (groups & rest & Hc & Hd & Hg & Hf).
  exists groups, rest. rewrite Hc. simpl.
  repeat split; auto.
Qed.

Lemma create_corpus_chunks_fst (docs : list pystr) (max_corpus_chunks : option Z)
    (start_index : Z) :
  map fst (create_corpus_chunks docs max_corpus_chunks start_index)
  = zrange start_index (length (create_corpus_chunks docs max_corpus_chunks start_index)).
Proof.
  destruct (create_corpus_chunks_spec docs max_corpus_chunks start_index)
    as (groups & rest & Hc & _). rewrite Hc.
  rewrite number_from_fst, number_from_length. reflexivity.
Qed.

(** C6: each chunk text is [concat g] for a group [g] of whole documents;
    the groups, in chunk order, are the documents consumed ([firstn k
    docs], all of them without a chunk limit); in each group the documents
    before the last one total fewer than [CHUNK_SIZE] code points, so a
    chunk is shorter than [CHUNK_SIZE] plus the length of its last
    document. *)
Theorem create_corpus_chunks_whole_documents (docs : list pystr)
    (max_corpus_chunks : option Z) (start_index : Z) :
  exists groups k,
    map snd (create_corpus_chunks docs max_corpus_chunks start_index)
      = map (@concat Z) groups /\
    concat groups = firstn k docs /\
    concat (map snd (create_corpus_chunks docs max_corpus_chunks start_index))
      = concat (firstn k docs) /\
    Forall (fun g => g <> [] /\
                     py_len (concat (removelast g)) < CHUNK_SIZE /\
                     py_len (concat g) < CHUNK_SIZE + py_len (last g [])) groups /\
    (no_chunk_limit max_corpus_chunks -> k = length docs).
Proof.
  destruct (create_corpus_chunks_spec docs max_corpus_chunks start_index)
    as (groups & rest & Hc & Hd & Hg & Hf).
  assert (Hk : concat groups = firstn (length (concat groups)) docs).
  { rewrite Hd, firstn_app, Nat.sub_diag, firstn_O, app_nil_r, firstn_all. reflexivity. }
  exists groups, (length (concat groups)).
  rewrite Hc, number_from_snd.
  split; [reflexivity|]. split; [exact Hk|]. split.
  { rewrite <- Hk. apply concat_map_concat. }
  split.
  - eapply Forall_impl; [|exact Hg]. intros g [Hne Hlt].
    split; [exact Hne|]. split; [exact Hlt|].
    rewrite (app_removelast_last [] Hne) at 1.
    rewrite concat_app. cbn [concat]. rewrite app_nil_r.
    unfold py_len in *. rewrite length_app, Nat2Z.inj_add. apply Z.add_lt_mono_r. exact Hlt.
  - intros Hn. rewrite (Hf Hn), app_nil_r in Hd. rewrite Hd. reflexivity.
Qed.

Lemma main_loop_trace_indices (order : CorpusChunks -> CorpusChunks)
    (attach : bytes -> option bytes) (test_data : TestData) (shards : list (list pystr))
    (n : option Z) (detailed_results : bool) (all_results : AllResults) (start_idx : Z) :
  let tr := concat (fst (main_loop order attach test_data shards n detailed_results
                                   all_results start_idx)) in
  map fst tr = zrange start_idx (length tr).
Proof.
  revert all_results start_idx.
  induction shards as [|corpus rest IH]; intros all_results start_idx; [reflexivity|].
  cbn [main_loop].
  set (chunks := create_corpus_chunks corpus n start_idx).
  assert (Hc : map fst chunks = zrange start_idx (length chunks))
    by apply create_corpus_chunks_fst.
  assert (Hstep : forall tr,
            map fst (concat tr) = zrange (start_idx + py_len chunks) (length (concat tr)) ->
            map fst (concat (chunks :: tr))
            = zrange start_idx (length (concat (chunks :: tr)))).
  { intros tr Htr. simpl. rewrite map_app, Hc, Htr, length_app.
    unfold py_len. apply zrange_app. }
  assert (Hone : map fst (concat [chunks]) = zrange start_idx (length (concat [chunks]))).
  { apply (Hstep []). reflexivity. }
  destruct test_data as [q|qs].
  - destruct (score _ =? 100); [exact Hone|].
    match goal with |- context [main_loop ?a ?b ?c ?d ?e ?f ?g ?h] =>
      pose proof (IH g h) as Hr; destruct (main_loop a b c d e f g h) as [tr out] end.
    apply Hstep. exact Hr.
  - destruct (search_multiple_test_strings_in_chunks _ _ _ _); [|exact Hone].
    match goal with |- context [main_loop ?a ?b ?c ?d ?e ?f ?g ?h] =>
      pose proof (IH g h) as Hr; destruct (main_loop a b c d e f g h) as [tr out] end.
    apply Hstep. exact Hr.
Qed.

(** C7: within one call the chunk indices are [start_index],
    [start_index + 1], ...; over a whole run of [main], which passes
    [start_idx + len(chunks)] to the next shard's call starting from 0, the
    indices of all chunks built are exactly [0 .. n-1] in order. *)
Theorem chunk_indices_contiguous :
  (forall (docs : list pystr) (max_corpus_chunks : option Z) (start_index : Z),
      map fst (create_corpus_chunks docs max_corpus_chunks start_index)
      = zrange start_index (length (create_corpus_chunks docs max_corpus_chunks start_index))) /\
  (forall (order : CorpusChunks -> CorpusChunks) (attach : bytes -> option bytes)
          (test_data : TestData) (shards : list (list pystr)) (n : option Z)
          (detailed_results : bool),
      let tr := concat (fst (main order attach test_data shards n detailed_results)) in
      map fst tr = zrange 0 (length tr)).
Proof.
  split.
  - apply create_corpus_chunks_fst.
  - intros. apply main_loop_trace_indices.
Qed.

(** ** Early stop in single-query mode *)

Lemma collect_single_stops (q : pystr) (detailed_results : bool)
    (pre : CorpusChunks) (x : Z * pystr) (post post' : CorpusChunks) (results : SearchResult) :
  score results < 100 ->
  snd (fast_fuzzy_match q (snd x)) = 100 ->
  score (fst (collect_single q detailed_results (pre ++ x :: post) results)) = 100 /\
  collect_single q detailed_results (pre ++ x :: post) results
  = collect_single q detailed_results (pre ++ x :: post') results.
Proof.
  intros Hr Hx. revert results Hr.
  induction pre as [|[idx c] pre IH]; intros results Hr.
  - destruct x as [idx c]. simpl in Hx. simpl app. cbn [collect_single].
    destruct (fast_fuzzy_match q c) as [m sc]. simpl in Hx. subst sc.
    set (r1 := if detailed_results && py_truthy m then _ else results).
    assert (Hs : score r1 = score results)
      by (unfold r1; destruct (_ && _); reflexivity).
    replace (score r1 <? 100) with true by (symmetry; apply Z.ltb_lt; lia).
    simpl. split; reflexivity.
  - simpl app. cbn [collect_single].
    pose proof (fast_fuzzy_match_result q c) as Hb.
    destruct (fast_fuzzy_match q c) as [m sc].
    set (r1 := if detailed_results && py_truthy m then _ else results).
    assert (Hs : score r1 = score results)
      by (unfold r1; destruct (_ && _); reflexivity).
    destruct (score r1 <? sc) eqn:Hlt.
    + destruct (sc =? 100) eqn:H100.
      * apply Z.eqb_eq in H100. split; [exact H100|reflexivity].
      * apply Z.eqb_neq in H100.
        destruct (IH (set_best r1 m sc) ltac:(simpl; lia)) as [H1 H2].
        rewrite <- H2.
        destruct (collect_single q detailed_results (pre ++ x :: post) (set_best r1 m sc)).
        split; [exact H1|reflexivity].
    + destruct (IH r1 ltac:(lia)) as [H1 H2].
      rewrite <- H2.
      destruct (collect_single q detailed_results (pre ++ x :: post) r1).
      split; [exact H1|reflexivity].
Qed.

(** C8: in single-query mode, once a result of 100 is read the collection
    of one shard's results stops: the shard's best score is 100 and the
    chunks after it in completion order are never read (any other tail
    gives the same outcome); and when a shard's best score is 100, [main]
    builds and searches no later shard: the run's outcome and trace do not
    depend on the remaining shards, and the trace ends with this shard's
    chunks. *)
Theorem single_mode_stops_at_100 (order : CorpusChunks -> CorpusChunks)
    (attach : bytes -> option bytes) (q : pystr) (detailed_results : bool) :
  (forall (pre : CorpusChunks) (x : Z * pystr) (post post' : CorpusChunks),
      snd (fast_fuzzy_match q (snd x)) = 100 ->
      score (fst (collect_single q detailed_results (pre ++ x :: post)
                                 (initial_result detailed_results))) = 100 /\
      collect_single q detailed_results (pre ++ x :: post) (initial_result detailed_results)
      = collect_single q detailed_results (pre ++ x :: post') (initial_result detailed_results)) /\
  (forall (corpus_data : list pystr) (rest rest' : list (list pystr)) (n : option Z)
          (all_results : AllResults) (start_idx : Z),
      score (fst (search_test_string_in_chunks order q
                    (create_corpus_chunks corpus_data n start_idx) detailed_results)) = 100 ->
      main_loop order attach (SingleTest q) (corpus_data :: rest) n detailed_results
                all_results start_idx
      = main_loop order attach (SingleTest q) (corpus_data :: rest') n detailed_results
                  all_results start_idx /\
      fst (main_loop order attach (SingleTest q) (corpus_data :: rest) n detailed_results
                     all_results start_idx)
      = [create_corpus_chunks corpus_data n start_idx]).
Proof.
  split.
  - intros pre x post post' Hx.
    apply collect_single_stops; [|exact Hx].
    unfold initial_result. simpl. lia.
  - intros corpus_data rest rest' n all_results start_idx H100.
    cbn [main_loop]. rewrite H100. simpl. split; reflexivity.
Qed.

(** ** Merging the shards' results in [main] *)

(** C1: [all_results[test_str].update(results)] replaces the stored
    closest solution and score by the last shard's, so the stored score can
    drop.  For the query "abcde", the shard ["abcdx"] alone gives a stored
    score of 89 (match "abcd"); with a second shard ["zzzzz"] after it the
    stored result becomes no match with score 0, in single-query and in
    batch mode alike. *)
Theorem main_update_lowers_score :
  final_result (main (fun l => l) os_attach (SingleTest (pystr_of "abcde"))
                     [[pystr_of "abcdx"]] None false) (pystr_of "abcde")
    = Some (Some (pystr_of "abcd"), 89) /\
  final_result (main (fun l => l) os_attach (SingleTest (pystr_of "abcde"))
                     [[pystr_of "abcdx"]; [pystr_of "zzzzz"]] None false) (pystr_of "abcde")
    = Some (None, 0) /\
  final_result (main (fun l => l) os_attach (TestList [pystr_of "abcde"])
                     [[pystr_of "abcdx"]] None false) (pystr_of "abcde")
    = Some (Some (pystr_of "abcd"), 89) /\
  final_result (main (fun l => l) os_attach (TestList [pystr_of "abcde"])
                     [[pystr_of "abcdx"]; [pystr_of "zzzzz"]] None false) (pystr_of "abcde")
    = Some (None, 0).
Proof.
  split; [|split; [|split]]; vm_compute; reflexivity.
Qed.

(** ** Worker failures in batch mode *)

(** C2 (counterexample): when the workers cannot attach the region, the
    first chunk's first [future.result()] re-raises [FileNotFoundError]:
    the run ends with it after the first shard, the second shard is never
    built and no result is produced. *)
Lemma worker_failure_aborts_counterexample :
  main (fun l => l) (fun _ => None) (TestList [pystr_of "abcde"; pystr_of "xyz"])
       [[pystr_of "abcdx"]; [pystr_of "zzzzz"]] None false
  = ([[(0, pystr_of "abcdx")]], Raise FileNotFoundError).
Proof. vm_compute. reflexivity. Qed.

Lemma collect_multi_raise (detailed_results : bool) (idx : Z)
    (pre : list (pystr * exc (option pystr * Z))) (q : pystr) (e : py_exc)
    (post : list (pystr * exc (option pystr * Z))) (results : Dict SearchResult) :
  Forall (fun o => exists v, snd o = Ok v) pre ->
  collect_multi detailed_results idx (pre ++ (q, Raise e) :: post) results = Raise e.
Proof.
  intros Hpre. revert results.
  induction Hpre as [|[q' o] pre [v Hv] Hpre IH]; intros results; [reflexivity|].
  simpl in Hv. subst o. destruct v as [m sc]. simpl. apply IH.
Qed.

Lemma process_chunks_raise (attach : bytes -> option bytes) (test_strings : list pystr)
    (detailed_results : bool) (pre : CorpusChunks) (c : Z * pystr) (post : CorpusChunks)
    (results r : Dict SearchResult) (e : py_exc) :
  process_chunks attach test_strings detailed_results pre results = Ok r ->
  process_chunk attach test_strings detailed_results r c = Raise e ->
  process_chunks attach test_strings detailed_results (pre ++ c :: post) results = Raise e.
Proof.
  revert results. induction pre as [|c' pre IH]; intros results Hpre Hc.
  - simpl in Hpre. injection Hpre as <-. simpl. rewrite Hc. reflexivity.
  - simpl in Hpre |- *.
    destruct (process_chunk attach test_strings detailed_results results c') as [r'|e'];
      [|discriminate].
    apply IH; assumption.
Qed.

(** C2 (amended): a worker-side failure is not converted to a no-match.
    A region that cannot be attached raises [FileNotFoundError] in the
    worker, and undecodable bytes raise [UnicodeDecodeError]; the
    coordinator's [future.result()] re-raises the first failure of a chunk
    in reading order, the failure of a chunk ends the shard's search, and
    [main] then stops: its outcome is that exception, whatever shards
    remain, and no later shard is built. *)
Theorem worker_failure_aborts_run :
  (forall q : pystr, fuzzy_match_shared_memory None q = Raise FileNotFoundError) /\
  (forall (buf : bytes) (q : pystr),
      utf8_decode buf = None -> fuzzy_match_shared_memory (Some buf) q = Raise UnicodeDecodeError) /\
  (forall detailed_results idx pre q e post results,
      Forall (fun o => exists v, snd o = Ok v) pre ->
      collect_multi detailed_results idx (pre ++ (q, Raise e) :: post) results = Raise e) /\
  (forall attach test_strings detailed_results pre c post results r e,
      process_chunks attach test_strings detailed_results pre results = Ok r ->
      process_chunk attach test_strings detailed_results r c = Raise e ->
      process_chunks attach test_strings detailed_results (pre ++ c :: post) results = Raise e) /\
  (forall order attach test_strings corpus_data rest n detailed_results all_results
          start_idx e,
      search_multiple_test_strings_in_chunks attach test_strings
        (create_corpus_chunks corpus_data n start_idx) detailed_results = Raise e ->
      main_loop order attach (TestList test_strings) (corpus_data :: rest) n
                detailed_results all_results start_idx
      = ([create_corpus_chunks corpus_data n start_idx], Raise e)).
Proof.
  split; [|split; [|split; [|split]]].
  - reflexivity.
  - intros buf q H. unfold fuzzy_match_shared_memory, shm_attach_decode. rewrite H.
    reflexivity.
  - intros. apply collect_multi_raise. assumption.
  - intros. eapply process_chunks_raise; eassumption.
  - intros order attach test_strings corpus_data rest n detailed_results all_results
      start_idx e H.
    cbn [main_loop]. rewrite H. reflexivity.
Qed.

(** ** UTF-8 round trip *)

Lemma lor_add (k n y : Z) :
  0 <= n -> 0 <= k -> 0 <= y < 2 ^ n -> Z.lor (k * 2 ^ n) y = k * 2 ^ n + y.
Proof.
  intros Hn Hk Hy.
  assert (Hand : Z.land (k * 2 ^ n) y = 0).
  { rewrite <- (Z.mod_small y (2 ^ n)) by exact Hy.
    rewrite <- Z.land_ones by exact Hn.
    rewrite (Z.land_comm y), Z.land_assoc, Z.land_ones by exact Hn.
    rewrite Z.mod_mul by (apply Z.pow_nonzero; lia). apply Z.land_0_l. }
  rewrite <- Z.lxor_lor by exact Hand.
  symmetry. apply Z.add_nocarry_lxor. exact Hand.
Qed.

Lemma lor_80 (y : Z) : 0 <= y < 64 -> Z.lor 0x80 y = 0x80 + y.
Proof. intros. apply (lor_add 2 6); lia. Qed.

Lemma lor_C0 (y : Z) : 0 <= y < 32 -> Z.lor 0xC0 y = 0xC0 + y.
Proof. intros. apply (lor_add 6 5); lia. Qed.

Lemma lor_E0 (y : Z) : 0 <= y < 16 -> Z.lor 0xE0 y = 0xE0 + y.
Proof. intros. apply (lor_add 14 4); lia. Qed.

Lemma lor_F0 (y : Z) : 0 <= y < 8 -> Z.lor 0xF0 y = 0xF0 + y.
Proof. intros. apply (lor_add 30 3); lia. Qed.

Lemma land_3F (x : Z) : Z.land x 0x3F = x mod 64.
Proof. apply (Z.land_ones x 6). lia. Qed.

Lemma land_1F (x : Z) : Z.land x 0x1F = x mod 32.
Proof. apply (Z.land_ones x 5). lia. Qed.

Lemma land_0F (x : Z) : Z.land x 0x0F = x mod 16.
Proof. apply (Z.land_ones x 4). lia. Qed.

Lemma land_07 (x : Z) : Z.land x 0x07 = x mod 8.
Proof. apply (Z.land_ones x 3). lia. Qed.

Lemma shiftr_6 (x : Z) : Z.shiftr x 6 = x / 64.
Proof. rewrite Z.shiftr_div_pow2 by lia. reflexivity. Qed.

Lemma shiftr_12 (x : Z) : Z.shiftr x 12 = x / 4096.
Proof. rewrite Z.shiftr_div_pow2 by lia. reflexivity. Qed.

Lemma shiftr_18 (x : Z) : Z.shiftr x 18 = x / 262144.
Proof. rewrite Z.shiftr_div_pow2 by lia. reflexivity. Qed.

Lemma shiftl_6 (x : Z) : Z.shiftl x 6 = x * 64.
Proof. rewrite Z.shiftl_mul_pow2 by lia. reflexivity. Qed.

Lemma shiftl_12 (x : Z) : Z.shiftl x 12 = x * 4096.
Proof. rewrite Z.shiftl_mul_pow2 by lia. reflexivity. Qed.

Lemma shiftl_18 (x : Z) : Z.shiftl x 18 = x * 262144.
Proof. rewrite Z.shiftl_mul_pow2 by lia. reflexivity. Qed.

Ltac zarith := Z.div_mod_to_equations; lia.

Ltac zbools :=
  repeat match goal with
  | |- context [?a <? ?b] =>
      let H := fresh "Hc" in
      destruct (Z.ltb_spec a b) as [H|H]; try (exfalso; zarith)
  | |- context [?a <=? ?b] =>
      let H := fresh "Hc" in
      destruct (Z.leb_spec a b) as [H|H]; try (exfalso; zarith)
  end; cbn [andb negb].

Lemma decode_encode_cp (c : Z) (rest : bytes) :
  0 <= c <= 0x10FFFF -> is_surrogate c = false ->
  utf8_decode (encode_cp c ++ rest) = option_map (cons c) (utf8_decode rest).
Proof.
  intros Hc Hs. unfold is_surrogate in Hs.
  unfold encode_cp.
  destruct (Z.ltb_spec c 0x80) as [H1|H1].
  { cbn [app utf8_decode]. zbools. reflexivity. }
  destruct (Z.ltb_spec c 0x800) as [H2|H2].
  { rewrite shiftr_6, land_3F, lor_C0, lor_80 by zarith.
    cbn [app utf8_decode]. unfold is_cont.
    rewrite ?shiftl_18, ?shiftl_12, ?shiftl_6, ?land_1F, ?land_0F, ?land_07, ?land_3F.
    zbools. do 2 f_equal. zarith. }
  destruct (Z.ltb_spec c 0x10000) as [H3|H3].
  { rewrite shiftr_12, shiftr_6, !land_3F, lor_E0, !lor_80 by zarith.
    cbn [app utf8_decode]. unfold is_cont, is_surrogate.
    rewrite ?shiftl_18, ?shiftl_12, ?shiftl_6, ?land_1F, ?land_0F, ?land_07, ?land_3F.
    apply andb_false_iff in Hs.
    zbools; try (exfalso; destruct Hs as [Hs|Hs]; apply Z.leb_gt in Hs; zarith);
      do 2 f_equal; zarith. }
  { rewrite shiftr_18, shiftr_12, shiftr_6, !land_3F, lor_F0, !lor_80 by zarith.
    cbn [app utf8_decode]. unfold is_cont.
    rewrite ?shiftl_18, ?shiftl_12, ?shiftl_6, ?land_1F, ?land_0F, ?land_07, ?land_3F.
    zbools; do 2 f_equal; zarith. }
Qed.

Lemma utf8_decode_encode (s : pystr) :
  valid_pystr s -> existsb is_surrogate s = false ->
  utf8_decode (flat_map encode_cp s) = Some s.
Proof.
  induction s as [|c s IH]; intros Hv Hs; [reflexivity|].
  inversion Hv as [|? ? Hc Hv']; subst.
  simpl in Hs. apply orb_false_iff in Hs as [Hs1 Hs2].
  simpl. rewrite decode_encode_cp by assumption. rewrite IH by assumption. reflexivity.
Qed.

Lemma encode_cp_nonempty (c : Z) : encode_cp c <> [].
Proof.
  unfold encode_cp.
  destruct (c <? 0x80), (c <? 0x800), (c <? 0x10000); discriminate.
Qed.

Lemma shm_write_fresh (data : bytes) : shm_write (repeat 0 (length data)) data = data.
Proof.
  unfold shm_write. rewrite skipn_all2 by (rewrite repeat_length; lia).
  apply app_nil_r.
Qed.

(** C3 (counterexample): an empty chunk (an empty document makes one)
    cannot be published, since [SharedMemory] refuses size 0, and a chunk
    holding a lone surrogate cannot be encoded. *)
Lemma publish_attach_counterexample :
  create_corpus_chunks [[]] None 0 = [(0, [])] /\
  shm_publish [] = Raise ValueError /\
  shm_publish [0xD800] = Raise UnicodeEncodeError.
Proof. vm_compute. repeat split. Qed.

(** C3 (amended): a chunk of code points without surrogates and with at
    least one character is published into a region holding exactly its
    UTF-8 encoding, and a worker that attaches that region decodes it back
    to the chunk; a chunk with a surrogate raises [UnicodeEncodeError] and
    the empty chunk raises [ValueError] when published. *)
Theorem publish_attach_roundtrip :
  (forall s : pystr,
      valid_pystr s -> existsb is_surrogate s = false -> s <> [] ->
      exists region,
        shm_publish s = Ok region /\ utf8_encode s = Some region /\
        shm_attach_decode (os_attach region) = Ok s) /\
  (forall s : pystr, existsb is_surrogate s = true -> shm_publish s = Raise UnicodeEncodeError) /\
  shm_publish [] = Raise ValueError.
Proof.
  split; [|split].
  - intros s Hv Hs Hne.
    exists (flat_map encode_cp s).
    assert (He : utf8_encode s = Some (flat_map encode_cp s))
      by (unfold utf8_encode; rewrite Hs; reflexivity).
    split; [|split; [exact He|]].
    + unfold shm_publish. rewrite He. unfold shm_create.
      destruct (Nat.eqb_spec (length (flat_map encode_cp s)) 0) as [H0|H0].
      * exfalso. destruct s as [|c s]; [contradiction|].
        simpl in H0. rewrite length_app in H0.
        destruct (encode_cp c) eqn:Ec; [exact (encode_cp_nonempty c Ec)|discriminate].
      * rewrite shm_write_fresh. reflexivity.
    + unfold shm_attach_decode, os_attach. rewrite utf8_decode_encode by assumption.
      reflexivity.
  - intros s Hs. unfold shm_publish, utf8_encode. rewrite Hs. reflexivity.
  - reflexivity.
Qed.

(** * Further properties of the modelled code *)

(** ** The scorers *)

Lemma partial_ratio_alignment_some (s1 s2 : pystr) :
  exists sa, partial_ratio_alignment s1 s2 = Some sa.
Proof.
  unfold partial_ratio_alignment.
  destruct (Nat.eqb _ 0 && Nat.eqb _ 0); [eexists; reflexivity|].
  destruct (if Nat.leb _ _ then _ else _) as [shorter longer].
  pose proof (partial_ratio_impl_bounds shorter longer) as [H1 _].
  pose proof (partial_ratio_impl_bounds longer shorter) as [H2 _].
  destruct (negb _ && _).
  - destruct (Qlt_le_dec (sa_score (partial_ratio_impl shorter longer))
                         (sa_score (partial_ratio_impl longer shorter))) as [Hlt|Hle];
    cbv beta iota zeta;
    (destruct (Qlt_le_dec _ _) as [Hc|Hc];
     [exfalso; simpl in Hc;
      destruct (Q.max_spec 0 (sa_score (partial_ratio_impl shorter longer))) as [[_ E]|[_ E]];
      rewrite E in Hc; lra
     |destruct (Nat.leb _ _); eexists; reflexivity]).
  - destruct (Qlt_le_dec _ _) as [Hc|Hc]; [exfalso; lra|].
    destruct (Nat.leb _ _); eexists; reflexivity.
Qed.

Lemma top_fast_fuzzy_match_ok (q c : pystr) :
  TopLevel.fast_fuzzy_match q c = TopLevel.ROk (fast_fuzzy_match q c).
Proof.
  unfold TopLevel.fast_fuzzy_match, fast_fuzzy_match.
  destruct (partial_ratio_alignment_some q c) as [sa E]. rewrite E.
  destruct (Qlt_le_dec _ _); reflexivity.
Qed.

(** [partial_ratio_alignment] with the default cutoff always returns an
    alignment, so the sibling scorer's [score_alignment.score] never meets
    [None] (no [AttributeError]) and both [fast_fuzzy_match] functions
    agree on every input. *)
Theorem top_fast_fuzzy_match_agrees (q c : pystr) :
  TopLevel.fast_fuzzy_match q c = TopLevel.ROk (fast_fuzzy_match q c).
Proof. apply top_fast_fuzzy_match_ok. Qed.

Lemma Qmax_compat_l (a b x : Q) : (a == b)%Q -> (Qmax a x == Qmax b x)%Q.
Proof.
  intros H.
  destruct (Q.max_spec a x) as [[H1 E1]|[H1 E1]];
  destruct (Q.max_spec b x) as [[H2 E2]|[H2 E2]]; rewrite E1, E2; lra.
Qed.

Lemma fold_Qmax_compat (l : list Q) (a b : Q) :
  (a == b)%Q -> (fold_left Qmax l a == fold_left Qmax l b)%Q.
Proof.
  revert a b. induction l as [|x l IH]; intros a b H; [exact H|].
  simpl. apply IH. apply Qmax_compat_l. exact H.
Qed.

Lemma top_slow_scan_inv (q c : pystr) (offs : list Z) (m : option pystr) (s : Q) :
  let '(m', s') := fold_left (TopLevel.slow_step q c) offs (m, s) in
  (s' == fold_left Qmax (map (fun i => ratio (slow_window q c i) q) offs) s)%Q /\
  ((m' = m /\ s' = s) \/
   exists i, In i offs /\ m' = Some (slow_window q c i) /\ s' = ratio (slow_window q c i) q).
Proof.
  revert m s. induction offs as [|i offs IH]; intros m s.
  - simpl. split; [reflexivity|left; auto].
  - simpl. unfold TopLevel.slow_step at 1.
    set (r := ratio (slow_window q c i) q).
    destruct (Qlt_le_dec s r) as [Hlt|Hge].
    + pose proof (IH (Some (slow_window q c i)) r) as H.
      destruct (fold_left _ offs _) as [m' s'].
      destruct H as [Hs Hm]. split.
      * rewrite Hs. apply fold_Qmax_compat.
        destruct (Q.max_spec s r) as [[_ E]|[H1 E]]; rewrite E; [reflexivity|lra].
      * right. destruct Hm as [[-> ->]|(j & Hj & -> & ->)].
        -- exists i. auto.
        -- exists j. auto.
    + pose proof (IH m s) as H.
      destruct (fold_left _ offs _) as [m' s'].
      destruct H as [Hs Hm]. split.
      * rewrite Hs. apply fold_Qmax_compat.
        destruct (Q.max_spec s r) as [[H1 E]|[_ E]]; rewrite E; [lra|reflexivity].
      * destruct Hm as [[-> ->]|(j & Hj & -> & ->)]; [left; auto|].
        right. exists j. auto.
Qed.

(** The sibling [slow_fuzzy_match] returns the unrounded best window
    ratio when it is at least [FUZZ_THRESHOLD] and [(None, 0)] otherwise;
    a returned match is one of the scanned windows, and its ratio is the
    returned score. *)
Theorem top_slow_fuzzy_match_best (q c : pystr) :
  (snd (TopLevel.slow_fuzzy_match q c)
   == if Qle_bool (inject_Z FUZZ_THRESHOLD) (slow_window_best q c)
      then slow_window_best q c else 0)%Q /\
  (forall w, fst (TopLevel.slow_fuzzy_match q c) = Some w ->
     exists i, In i (slow_offsets q c) /\ w = slow_window q c i /\
               ratio w q = snd (TopLevel.slow_fuzzy_match q c)).
Proof.
  unfold TopLevel.slow_fuzzy_match, slow_window_best.
  pose proof (top_slow_scan_inv q c (slow_offsets q c) None 0%Q) as H.
  destruct (fold_left _ _ _) as [m' s'].
  destruct H as [Hs Hm].
  set (best := fold_left Qmax _ 0%Q) in *.
  assert (Hb : Qle_bool (inject_Z FUZZ_THRESHOLD) s'
               = Qle_bool (inject_Z FUZZ_THRESHOLD) best).
  { destruct (Qle_bool (inject_Z FUZZ_THRESHOLD) s') eqn:E1;
    destruct (Qle_bool (inject_Z FUZZ_THRESHOLD) best) eqn:E2; try reflexivity.
    - apply Qle_bool_iff in E1. rewrite Hs in E1. apply Qle_bool_iff in E1. congruence.
    - apply Qle_bool_iff in E2. rewrite <- Hs in E2. apply Qle_bool_iff in E2. congruence. }
  rewrite Hb. split.
  - destruct (Qle_bool _ best); simpl; [exact Hs|reflexivity].
  - intros w Hw. destruct (Qle_bool _ best); simpl in Hw |- *; [|discriminate].
    destruct Hm as [[-> _]|(i & Hi & -> & ->)]; [discriminate|].
    injection Hw as <-. exists i. auto.
Qed.

Lemma py_slice_infix {A} (s : list A) (a b : nat) :
  exists pre post, s = pre ++ py_slice s a b ++ post /\
                   length post = (length s - a - (b - a))%nat.
Proof.
  unfold py_slice.
  exists (firstn a s), (skipn (b - a) (skipn a s)).
  split.
  - rewrite firstn_skipn. symmetry. apply firstn_skipn.
  - rewrite !length_skipn. lia.
Qed.



Lemma slow_scan_match (q c : pystr) (offs : list Z) (bm : option pystr) (bs : Z) :
  fst (fold_left (slow_step q c) offs (bm, bs)) = bm \/
  exists i, In i offs /\ fst (fold_left (slow_step q c) offs (bm, bs)) = Some (slow_window q c i).
Proof.
  revert bm bs. induction offs as [|i offs IH]; intros bm bs; [left; reflexivity|].
  simpl. unfold slow_step at 2.
  destruct (Qlt_le_dec _ _).
  - destruct (IH (Some (slow_window q c i)) (py_round (ratio (slow_window q c i) q)))
      as [E|(j & Hj & E)]; right; [exists i|exists j]; auto.
  - destruct (IH bm bs) as [E|(j & Hj & E)]; [left; exact E|right; exists j; auto].
Qed.

(** [slow_fuzzy_match] returns, when it accepts, a window of the chunk
    exactly as long as the query and followed by at least one more
    character of the chunk (the last window is never scanned). *)
Theorem slow_fuzzy_match_window (q c m : pystr) (s : Z) :
  slow_fuzzy_match q c = (Some m, s) ->
  length m = length q /\ exists pre post, c = pre ++ m ++ post /\ post <> [].
Proof.
  unfold slow_fuzzy_match, slow_scan.
  pose proof (slow_scan_match q c (slow_offsets q c) None 0) as Hm.
  destruct (fold_left _ _ _) as [bm bs]. simpl in Hm.
  destruct (bs >=? FUZZ_THRESHOLD); [|discriminate].
  intros [= -> _].
  destruct Hm as [E|(i & Hi & E)]; [discriminate|].
  injection E as ->.
  pose proof (slow_offsets_bounds q c i Hi) as Hb.
  unfold slow_window.
  destruct (py_slice_infix c (Z.to_nat i) (Z.to_nat (i + py_len q))) as (pre & post & E & Hp).
  unfold py_len in *.
  split.
  - unfold py_slice. rewrite length_firstn, length_skipn. lia.
  - exists pre, post. split; [exact E|].
    intros ->. simpl in Hp. lia.
Qed.

Lemma slow_fuzzy_match_window_witness :
  slow_fuzzy_match (pystr_of "abc") (pystr_of "xabcxx") = (Some (pystr_of "abc"), 100) /\
  (length (pystr_of "abc") = length (pystr_of "abc") /\
   exists pre post, pystr_of "xabcxx" = pre ++ pystr_of "abc" ++ post /\ post <> []).
Proof.
  split; [vm_compute; reflexivity|].
  apply (slow_fuzzy_match_window (pystr_of "abc") (pystr_of "xabcxx") (pystr_of "abc") 100). vm_compute. reflexivity.
Defined.

(** ** The chunk builders *)

Lemma chunks_loop_prefix (fuel : nat) (docs : list pystr) (max_corpus_chunks : option Z)
    (start_index : Z) (acc : CorpusChunks) :
  exists tail, chunks_loop fuel docs max_corpus_chunks start_index acc = acc ++ tail.
Proof.
  destruct (chunks_loop_spec fuel docs max_corpus_chunks start_index acc)
    as (groups & rest & Hc & _). eexists. exact Hc.
Qed.

Lemma chunks_loop_zero_limit (fuel : nat) (docs : list pystr) (start_index : Z)
    (acc : CorpusChunks) :
  chunks_loop fuel docs (Some 0) start_index acc = chunks_loop fuel docs None start_index acc.
Proof.
  revert docs acc. induction fuel as [|fuel IH]; intros docs acc; [reflexivity|].
  destruct docs as [|d ds]; [reflexivity|].
  cbn [chunks_loop below_max_chunks Z.eqb].
  destruct (fill_chunk (d :: ds) []). apply IH.
Qed.

Lemma chunks_loop_limit (fuel : nat) (docs : list pystr) (m start_index : Z)
    (acc : CorpusChunks) :
  m <> 0 -> (length acc <= Z.to_nat m)%nat ->
  chunks_loop fuel docs (Some m) start_index acc
  = firstn (Z.to_nat m) (chunks_loop fuel docs None start_index acc).
Proof.
  intros Hm. revert docs acc. induction fuel as [|fuel IH]; intros docs acc Hacc.
  - simpl. symmetry. apply firstn_all2. exact Hacc.
  - destruct docs as [|d ds].
    + simpl. symmetry. apply firstn_all2. exact Hacc.
    + cbn [chunks_loop below_max_chunks].
      replace (m =? 0) with false by (symmetry; apply Z.eqb_neq; exact Hm).
      destruct (fill_chunk (d :: ds) []) as [text rest].
      destruct (py_len acc <? m) eqn:Hlt.
      * apply Z.ltb_lt in Hlt. unfold py_len in Hlt.
        apply IH. rewrite length_app. simpl. lia.
      * apply Z.ltb_ge in Hlt. unfold py_len in Hlt.
        destruct (chunks_loop_prefix fuel rest None start_index
                    (acc ++ [(py_len acc + start_index, text)])) as [tail E].
        rewrite E, <- app_assoc.
        replace (Z.to_nat m) with (length acc) by lia.
        rewrite firstn_app, Nat.sub_diag, firstn_O, app_nil_r, firstn_all. reflexivity.
Qed.

(** [create_corpus_chunks]: a [max_corpus_chunks] of 0 means no limit
    (like [None]); any other value [m] keeps the first [m] chunks of the
    unlimited chunking of the call (none when [m < 0]): the limit counts
    the chunks of one call, whatever [start_index]. *)
Theorem create_corpus_chunks_limit :
  (forall (docs : list pystr) (start_index : Z),
      create_corpus_chunks docs (Some 0) start_index
      = create_corpus_chunks docs None start_index) /\
  (forall (docs : list pystr) (m start_index : Z),
      m <> 0 ->
      create_corpus_chunks docs (Some m) start_index
      = firstn (Z.to_nat m) (create_corpus_chunks docs None start_index)).
Proof.
  split.
  - intros. apply chunks_loop_zero_limit.
  - intros docs m start_index Hm. apply chunks_loop_limit; [exact Hm|simpl; lia].
Qed.

Lemma top_chunks_loop_limit (fuel : nat) (docs : list pystr) (chunk_size m idx : Z) :
  TopLevel.chunks_loop fuel docs chunk_size (Some m) idx
  = firstn (Z.to_nat (m - idx)) (TopLevel.chunks_loop fuel docs chunk_size None idx).
Proof.
  revert docs idx. induction fuel as [|fuel IH]; intros docs idx.
  - simpl. symmetry. apply firstn_nil.
  - destruct docs as [|d ds]; [simpl; symmetry; apply firstn_nil|].
    cbn [TopLevel.chunks_loop TopLevel.below_max_chunks].
    destruct (TopLevel.fill_chunk (d :: ds) chunk_size []) as [text rest].
    destruct (idx <? m) eqn:Hlt.
    + apply Z.ltb_lt in Hlt.
      replace (Z.to_nat (m - idx)) with (S (Z.to_nat (m - (idx + 1)))) by lia.
      simpl. f_equal. apply IH.
    + apply Z.ltb_ge in Hlt.
      replace (Z.to_nat (m - idx)) with 0%nat by lia. reflexivity.
Qed.

Lemma top_chunks_loop_fst (fuel : nat) (docs : list pystr) (chunk_size : Z)
    (max_chunks : option Z) (idx : Z) :
  map fst (TopLevel.chunks_loop fuel docs chunk_size max_chunks idx)
  = zrange idx (length (TopLevel.chunks_loop fuel docs chunk_size max_chunks idx)).
Proof.
  revert docs idx. induction fuel as [|fuel IH]; intros docs idx; [reflexivity|].
  destruct docs as [|d ds]; [reflexivity|].
  cbn [TopLevel.chunks_loop].
  destruct (TopLevel.below_max_chunks idx max_chunks); [|reflexivity].
  destruct (TopLevel.fill_chunk (d :: ds) chunk_size []) as [text rest].
  simpl length. rewrite zrange_cons. simpl. f_equal. apply IH.
Qed.

Lemma top_create_corpus_chunks_bound (docs : list pystr) (chunk_size m idx : Z) :
  Z.of_nat (length (TopLevel.create_corpus_chunks docs chunk_size (Some m) idx))
  <= Z.max 0 (m - idx).
Proof.
  unfold TopLevel.create_corpus_chunks. rewrite top_chunks_loop_limit.
  pose proof (firstn_le_length (Z.to_nat (m - idx))
                (TopLevel.chunks_loop (length docs) docs chunk_size None idx)).
  lia.
Qed.

(** The sibling [create_corpus_chunks], for a positive [chunk_size]:
    chunk [k] of a call gets index [start_index + k], and [max_chunks]
    bounds the index itself: with [Some m] the call keeps the chunks of the
    unlimited call whose index is below [m] (none when
    [start_index >= m], none at all for [m = 0]). *)
Theorem top_create_corpus_chunks_indices (docs : list pystr) (chunk_size start_index : Z) :
  0 < chunk_size ->
  (forall max_chunks : option Z,
      map fst (TopLevel.create_corpus_chunks docs chunk_size max_chunks start_index)
      = zrange start_index
          (length (TopLevel.create_corpus_chunks docs chunk_size max_chunks start_index))) /\
  (forall m : Z,
      TopLevel.create_corpus_chunks docs chunk_size (Some m) start_index
      = firstn (Z.to_nat (m - start_index))
               (TopLevel.create_corpus_chunks docs chunk_size None start_index)) /\
  (forall (m i : Z) (text : pystr),
      In (i, text) (TopLevel.create_corpus_chunks docs chunk_size (Some m) start_index) ->
      start_index <= i < m).
Proof.
  intros _.
  split; [|split].
  - intros. apply top_chunks_loop_fst.
  - intros. apply top_chunks_loop_limit.
  - intros m i text Hin.
    pose proof (top_create_corpus_chunks_bound docs chunk_size m start_index) as Hb.
    apply (in_map fst) in Hin. simpl in Hin.
    unfold TopLevel.create_corpus_chunks in *.
    rewrite top_chunks_loop_fst in Hin.
    unfold zrange in Hin. apply in_map_iff in Hin as (j & <- & Hj).
    apply in_seq in Hj. lia.
Qed.

Lemma top_create_corpus_chunks_indices_witness :
  0 < 2 /\
  ((forall max_chunks : option Z,
      map fst (TopLevel.create_corpus_chunks [pystr_of "ab"; pystr_of "cd"] 2 max_chunks 7)
      = zrange 7 (length (TopLevel.create_corpus_chunks
                            [pystr_of "ab"; pystr_of "cd"] 2 max_chunks 7))) /\
   (forall m : Z,
      TopLevel.create_corpus_chunks [pystr_of "ab"; pystr_of "cd"] 2 (Some m) 7
      = firstn (Z.to_nat (m - 7))
               (TopLevel.create_corpus_chunks [pystr_of "ab"; pystr_of "cd"] 2 None 7)) /\
   (forall (m i : Z) (text : pystr),
      In (i, text) (TopLevel.create_corpus_chunks [pystr_of "ab"; pystr_of "cd"] 2 (Some m) 7) ->
      7 <= i < m)).
Proof.
  split; [lia|].
  apply (top_create_corpus_chunks_indices [pystr_of "ab"; pystr_of "cd"] 2 7). lia.
Defined.

Lemma top_fill_chunk_spec (docs : list pystr) (chunk_size : Z) (g : list pystr) :
  py_len (concat (removelast g)) < chunk_size ->
  exists taken rest,
    TopLevel.fill_chunk docs chunk_size (concat g) = (concat (g ++ taken), rest) /\
    docs = taken ++ rest /\
    py_len (concat (removelast (g ++ taken))) < chunk_size /\
    (g = [] -> docs <> [] -> taken <> []).
Proof.
  revert g. induction docs as [|d docs IH]; intros g Hg.
  - exists [], []. rewrite app_nil_r. repeat split; auto.
  - simpl. destruct (py_len (concat g) <? chunk_size) eqn:Hlt.
    + apply Z.ltb_lt in Hlt.
      destruct (IH (g ++ [d])) as (taken & rest & Hf & Hd & Hok & _).
      { rewrite removelast_last. exact Hlt. }
      exists (d :: taken), rest.
      replace (concat g ++ d) with (concat (g ++ [d]))
        by (rewrite concat_app; simpl; rewrite app_nil_r; reflexivity).
      rewrite Hf, <- app_assoc. simpl.
      repeat split; [rewrite Hd; reflexivity|rewrite <- app_assoc in Hok; exact Hok|].
      intros _ _; discriminate.
    + exists [], (d :: docs). rewrite app_nil_r.
      repeat split; [exact Hg|].
      intros -> _. exfalso. apply Z.ltb_ge in Hlt. unfold py_len in *. simpl in Hg, Hlt. lia.
Qed.

Lemma top_chunks_loop_spec (fuel : nat) (docs : list pystr) (chunk_size : Z)
    (max_chunks : option Z) (idx : Z) :
  0 < chunk_size ->
  exists groups rest,
    TopLevel.chunks_loop fuel docs chunk_size max_chunks idx
      = number_from idx (map (@concat Z) groups) /\
    docs = concat groups ++ rest /\
    Forall (fun g => g <> [] /\ py_len (concat (removelast g)) < chunk_size) groups /\
    ((length docs <= fuel)%nat -> max_chunks = None -> rest = []).
Proof.
  intros Hcs. revert docs idx. induction fuel as [|fuel IH]; intros docs idx.
  - exists [], docs. repeat split; auto.
    intros Hl _. destruct docs; [reflexivity|simpl in Hl; lia].
  - destruct docs as [|d ds].
    + exists [], []. repeat split; auto.
    + cbn [TopLevel.chunks_loop].
      destruct (TopLevel.below_max_chunks idx max_chunks) eqn:Hb.
      * destruct (top_fill_chunk_spec (d :: ds) chunk_size [] ltac:(unfold py_len; simpl; lia))
          as (taken & rest1 & Hf & Hd & Hok & Hne).
        change (concat []) with (@nil Z) in Hf. rewrite app_nil_l in Hf.
        rewrite Hf.
        destruct (IH rest1 (idx + 1)) as (groups & rest & Hc & Hr & Hg & Hfuel).
        exists (taken :: groups), rest.
        split; [|split; [|split]].
        -- rewrite Hc. reflexivity.
        -- rewrite Hd, Hr. simpl. apply app_assoc.
        -- constructor; [|exact Hg].
           split; [apply Hne; [reflexivity|discriminate]|exact Hok].
        -- intros Hl Hn. apply Hfuel; [|exact Hn].
           assert (Hlen : length (d :: ds) = (length taken + length rest1)%nat)
             by (rewrite Hd, length_app; reflexivity).
           destruct taken; [exfalso; exact (Hne eq_refl ltac:(discriminate) eq_refl)|].
           simpl in Hlen, Hl. lia.
      * exists [], (d :: ds). repeat split; auto.
        intros _ ->. discriminate.
Qed.

(** The sibling [create_corpus_chunks], for a positive [chunk_size]: each
    chunk text is [concat g] for a group [g] of whole documents; the
    groups, in chunk order, are the documents consumed ([firstn k
    corpus_data], all of them when [max_chunks] is [None]); in each group
    the documents before the last one total fewer than [chunk_size] code
    points. *)
Theorem top_create_corpus_chunks_whole_documents (docs : list pystr) (chunk_size : Z)
    (max_chunks : option Z) (start_index : Z) :
  0 < chunk_size ->
  exists groups k,
    map snd (TopLevel.create_corpus_chunks docs chunk_size max_chunks start_index)
      = map (@concat Z) groups /\
    concat groups = firstn k docs /\
    Forall (fun g => g <> [] /\ py_len (concat (removelast g)) < chunk_size) groups /\
    (max_chunks = None -> k = length docs).
Proof.
  intros Hcs. unfold TopLevel.create_corpus_chunks.
  destruct (top_chunks_loop_spec (length docs) docs chunk_size max_chunks start_index Hcs)
    as (groups & rest & Hc & Hd & Hg & Hf).
  assert (Hk : concat groups = firstn (length (concat groups)) docs).
  { rewrite Hd, firstn_app, Nat.sub_diag, firstn_O, app_nil_r, firstn_all. reflexivity. }
  exists groups, (length (concat groups)).
  rewrite Hc, number_from_snd.
  split; [reflexivity|]. split; [exact Hk|]. split; [exact Hg|].
  intros Hn. rewrite (Hf (le_n _) Hn), app_nil_r in Hd. rewrite Hd. reflexivity.
Qed.

Lemma top_create_corpus_chunks_whole_documents_witness :
  0 < 3 /\
  exists groups k,
    map snd (TopLevel.create_corpus_chunks
               [pystr_of "ab"; pystr_of "cd"; pystr_of "e"] 3 None 5)
      = map (@concat Z) groups /\
    concat groups = firstn k [pystr_of "ab"; pystr_of "cd"; pystr_of "e"] /\
    Forall (fun g => g <> [] /\ py_len (concat (removelast g)) < 3) groups /\
    (@None Z = None -> k = length [pystr_of "ab"; pystr_of "cd"; pystr_of "e"]).
Proof.
  split; [lia|].
  apply (top_create_corpus_chunks_whole_documents
           [pystr_of "ab"; pystr_of "cd"; pystr_of "e"] 3 None 5).
  lia.
Defined.

(** ** The sibling [main] *)

Lemma map_fst_relabel {A B C} (g : B -> C) (tr : list (A * B)) :
  map fst (map (fun '(c, b) => (c, g b)) tr) = map fst tr.
Proof.
  induction tr as [|[c b] tr IH]; [reflexivity|]. simpl. f_equal. exact IH.
Qed.

Lemma map_snd_relabel {A B C} (g : B -> C) (tr : list (A * B)) :
  map snd (map (fun '(c, b) => (c, g b)) tr) = map g (map snd tr).
Proof.
  induction tr as [|[c b] tr IH]; [reflexivity|]. simpl. f_equal. exact IH.
Qed.

Lemma main_indices_step (chunks : CorpusChunks) (rest : CorpusChunks) (start : Z)
    (n : option Z) :
  map fst chunks = zrange start (length chunks) ->
  (forall m, n = Some m -> Z.of_nat (length chunks) <= Z.max 0 (m - start)) ->
  map fst rest = zrange (start + py_len chunks) (length rest) ->
  (forall m, n = Some m ->
     start + py_len chunks + Z.of_nat (length rest) <= Z.max m (start + py_len chunks)) ->
  map fst (chunks ++ rest) = zrange start (length (chunks ++ rest)) /\
  (forall m, n = Some m -> start + Z.of_nat (length (chunks ++ rest)) <= Z.max m start).
Proof.
  intros H1 B1 H2 B2. unfold py_len in *. split.
  - rewrite map_app, H1, H2, length_app. apply zrange_app.
  - intros m Hm. specialize (B1 m Hm). specialize (B2 m Hm).
    rewrite length_app. lia.
Qed.

Lemma top_create_main_chunks (corpus_data : list pystr) (n : option Z) (start : Z) :
  let chunks := TopLevel.create_corpus_chunks corpus_data CHUNK_SIZE n start in
  map fst chunks = zrange start (length chunks) /\
  (forall m, n = Some m -> Z.of_nat (length chunks) <= Z.max 0 (m - start)).
Proof.
  split.
  - apply top_chunks_loop_fst.
  - intros m ->. apply top_create_corpus_chunks_bound.
Qed.

Lemma top_main_loop_single_indices (order : CorpusChunks -> CorpusChunks) (q : pystr) (shards : list (option (list pystr)))
    (n : option Z) (det : bool) (best : SearchResult) (start : Z) :
  let tr := concat (map fst (fst (TopLevel.main_loop_single order q shards n det
                                                           best start))) in
  map fst tr = zrange start (length tr) /\
  (forall m, n = Some m -> start + Z.of_nat (length tr) <= Z.max m start).
Proof.
  revert best start.
  induction shards as [|[corpus|] rest IH]; intros best start;
    [split; [reflexivity|intros; simpl; lia]| |apply IH].
  cbn [TopLevel.main_loop_single].
  destruct (top_create_main_chunks corpus n start) as [Hc Bc].
  set (chunks := TopLevel.create_corpus_chunks corpus CHUNK_SIZE n start) in *.
  destruct (TopLevel.search_test_string_in_chunks order q chunks det) as [current|e].
  2:{ split; [reflexivity|intros; simpl; lia]. }
  destruct (score best <? score current).
  - destruct (score (TopLevel.merge_single det best current) =? 100).
    + cbn [fst map concat]. rewrite app_nil_r.
      split; [exact Hc|]. intros m Hm. specialize (Bc m Hm). lia.
    + destruct (IH (TopLevel.merge_single det best current) (start + py_len chunks)) as [H2 B2].
      destruct (TopLevel.main_loop_single _ _ _ _ _ _ _) as [tr out].
      cbn [fst map concat] in *. apply main_indices_step; assumption.
  - destruct (IH best (start + py_len chunks)) as [H2 B2].
    destruct (TopLevel.main_loop_single _ _ _ _ _ _ _) as [tr out].
    cbn [fst map concat] in *. apply main_indices_step; assumption.
Qed.

Lemma top_main_loop_multi_indices (attach : bytes -> option bytes) (qs : list pystr) (shards : list (option (list pystr)))
    (n : option Z) (det : bool) (best : Dict SearchResult) (start : Z) :
  let tr := concat (map fst (fst (TopLevel.main_loop_multi attach qs shards n det
                                                          best start))) in
  map fst tr = zrange start (length tr) /\
  (forall m, n = Some m -> start + Z.of_nat (length tr) <= Z.max m start).
Proof.
  revert best start.
  induction shards as [|[corpus|] rest IH]; intros best start;
    [split; [reflexivity|intros; simpl; lia]| |apply IH].
  cbn [TopLevel.main_loop_multi].
  destruct (top_create_main_chunks corpus n start) as [Hc Bc].
  set (chunks := TopLevel.create_corpus_chunks corpus CHUNK_SIZE n start) in *.
  destruct (TopLevel.search_multiple_test_strings_in_chunks attach qs chunks det)
    as [current|e].
  2:{ split; [reflexivity|intros; simpl; lia]. }
  destruct (IH (TopLevel.merge_multi det best current) (start + py_len chunks)) as [H2 B2].
  destruct (TopLevel.main_loop_multi _ _ _ _ _ _ _) as [tr out].
  cbn [fst map concat] in *. apply main_indices_step; assumption.
Qed.

(** The sibling [main]: the chunks searched over the whole run (files that
    cannot be read are skipped) carry the indices [0, 1, 2, ...] in order,
    and with [num_chunks_to_read = m] the run searches at most [m] chunks in
    total, not per file. *)
Theorem top_main_chunk_indices (order : CorpusChunks -> CorpusChunks)
    (attach : bytes -> option bytes) (test_data : TestData)
    (shards : list (option (list pystr))) (n : option Z) (det : bool) :
  let chunks := concat (map fst (fst (TopLevel.main order attach test_data shards n det))) in
  map fst chunks = zrange 0 (length chunks) /\
  (forall m, n = Some m -> Z.of_nat (length chunks) <= Z.max m 0).
Proof.
  destruct test_data as [q|qs]; cbn [TopLevel.main].
  - pose proof (top_main_loop_single_indices order q shards n det
                  (initial_result det) 0) as H.
    destruct (TopLevel.main_loop_single _ _ _ _ _ _ _) as [tr out].
    cbn [fst] in *. rewrite map_fst_relabel. exact H.
  - pose proof (top_main_loop_multi_indices attach qs shards n det
                  (dict_of_keys qs (initial_result det)) 0) as H.
    destruct (TopLevel.main_loop_multi _ _ _ _ _ _ _) as [tr out].
    cbn [fst] in *. rewrite map_fst_relabel. exact H.
Qed.

(** *** The best results only improve *)

Lemma improves_refl (r : SearchResult) : improves r r.
Proof. split; [lia|reflexivity]. Qed.

Lemma improves_trans (r1 r2 r3 : SearchResult) :
  improves r1 r2 -> improves r2 r3 -> improves r1 r3.
Proof.
  intros [H1 E1] [H2 E2]. split; [lia|].
  intros E. rewrite E2 by lia. apply E1. lia.
Qed.

Lemma dict_improves_refl (d : Dict SearchResult) : dict_improves d d.
Proof. intros q r H. exists r. split; [exact H|apply improves_refl]. Qed.

Lemma dict_improves_trans (d1 d2 d3 : Dict SearchResult) :
  dict_improves d1 d2 -> dict_improves d2 d3 -> dict_improves d1 d3.
Proof.
  intros H12 H23 q r H.
  destruct (H12 q r H) as (r2 & H2 & I2).
  destruct (H23 q r2 H2) as (r3 & H3 & I3).
  exists r3. split; [exact H3|]. eapply improves_trans; eassumption.
Qed.

Lemma dict_get_modify_same {V} (d : Dict V) (k : pystr) (f : V -> V) :
  dict_get (dict_modify d k f) k = option_map f (dict_get d k).
Proof.
  induction d as [|[k' v] d IH]; [reflexivity|].
  unfold dict_modify in *. cbn [map].
  destruct (list_eq_dec Z.eq_dec k k') as [<-|Hne]; simpl.
  - destruct (list_eq_dec Z.eq_dec k k) as [_|C]; [reflexivity|contradiction].
  - destruct (list_eq_dec Z.eq_dec k k') as [C|_]; [contradiction|exact IH].
Qed.

Lemma dict_get_modify_other {V} (d : Dict V) (k q : pystr) (f : V -> V) :
  q <> k -> dict_get (dict_modify d k f) q = dict_get d q.
Proof.
  intros Hqk. induction d as [|[k' v] d IH]; [reflexivity|].
  unfold dict_modify in *. cbn [map].
  destruct (list_eq_dec Z.eq_dec k k') as [<-|Hne]; simpl.
  - destruct (list_eq_dec Z.eq_dec q k) as [C|_]; [contradiction|exact IH].
  - destruct (list_eq_dec Z.eq_dec q k'); [reflexivity|exact IH].
Qed.

Lemma dict_modify_improves (d : Dict SearchResult) (k : pystr)
    (f : SearchResult -> SearchResult) :
  (forall r, improves r (f r)) -> dict_improves d (dict_modify d k f).
Proof.
  intros Hf q r H.
  destruct (list_eq_dec Z.eq_dec q k) as [<-|Hne].
  - rewrite dict_get_modify_same, H. eexists. split; [reflexivity|apply Hf].
  - rewrite dict_get_modify_other by exact Hne. exists r.
    split; [exact H|apply improves_refl].
Qed.

Lemma merge_multi_entry_improves (det : bool) (result best : SearchResult) :
  improves best (TopLevel.merge_multi_entry det result best).
Proof.
  unfold improves, TopLevel.merge_multi_entry.
  destruct (score best <? score result) eqn:Hlt; [apply Z.ltb_lt in Hlt|apply Z.ltb_ge in Hlt];
    destruct det; simpl; (split; [lia|intros; first [reflexivity|lia]]).
Qed.

Lemma merge_multi_improves (det : bool) (best current : Dict SearchResult) :
  dict_improves best (TopLevel.merge_multi det best current).
Proof.
  unfold TopLevel.merge_multi. revert best.
  induction current as [|[k r] current IH]; intros best; [apply dict_improves_refl|].
  simpl. eapply dict_improves_trans; [|apply IH].
  apply dict_modify_improves. intros. apply merge_multi_entry_improves.
Qed.

Lemma merge_single_improves (det : bool) (best current : SearchResult) :
  score best < score current -> improves best (TopLevel.merge_single det best current).
Proof. intros H. unfold improves, TopLevel.merge_single. simpl. split; [lia|intros; lia]. Qed.

Lemma best_single_improves (q : pystr) (r r' : SearchResult) :
  improves r r' -> best_improves (TopLevel.BestSingle q r) (TopLevel.BestSingle q r').
Proof.
  intros I q' r0 H. simpl in *.
  destruct (list_eq_dec Z.eq_dec q' q); [|discriminate].
  injection H as <-. exists r'. split; [reflexivity|exact I].
Qed.

Lemma last_cons_default {A} (x d : A) (l : list A) : last (x :: l) d = last l x.
Proof.
  revert x d. induction l as [|y l IH]; intros x d; [reflexivity|].
  change (last (y :: l) d = last (y :: l) x). rewrite !IH. reflexivity.
Qed.

Lemma last_map_default {A B} (f : A -> B) (l : list A) (d : A) :
  last (map f l) (f d) = f (last l d).
Proof.
  revert d. induction l as [|x l IH]; intros d; [reflexivity|].
  change (map f (x :: l)) with (f x :: map f l).
  rewrite !last_cons_default. apply IH.
Qed.

Lemma chain_map {A B} (R : A -> A -> Prop) (R' : B -> B -> Prop) (f : A -> B)
    (x : A) (l : list A) :
  (forall a b, R a b -> R' (f a) (f b)) -> chain R x l -> chain R' (f x) (map f l).
Proof.
  intros Hf. revert x. induction l as [|y l IH]; intros x; [trivial|].
  intros [H1 H2]. split; [apply Hf, H1|apply IH, H2].
Qed.

Lemma chain_adjacent {A} (R : A -> A -> Prop) (x : A) (l pre post : list A) (b b' : A) :
  chain R x l -> x :: l = pre ++ b :: b' :: post -> R b b'.
Proof.
  revert x l. induction pre as [|p pre IH]; intros x l Hc E.
  - injection E as -> ->. exact (proj1 Hc).
  - injection E as -> E. destruct l as [|y l].
    + destruct pre; discriminate.
    + exact (IH y l (proj2 Hc) E).
Qed.

Lemma chain_last {A} (R : A -> A -> Prop) (x : A) (l : list A) :
  (forall a, R a a) -> (forall a b c, R a b -> R b c -> R a c) ->
  chain R x l -> forall b, In b (x :: l) -> R b (last l x).
Proof.
  intros Hr Ht. revert x. induction l as [|y l IH]; intros x Hc b Hb.
  - destruct Hb as [<-|[]]. apply Hr.
  - rewrite last_cons_default. destruct Hc as [H1 H2].
    destruct Hb as [<-|Hb].
    + eapply Ht; [exact H1|]. apply IH; [exact H2|left; reflexivity].
    + apply IH; assumption.
Qed.

Lemma top_main_loop_single_chain (order : CorpusChunks -> CorpusChunks) (q : pystr) (shards : list (option (list pystr)))
    (n : option Z) (det : bool) (best : SearchResult) (start : Z) :
  let out := TopLevel.main_loop_single order q shards n det best start in
  chain improves best (map snd (fst out)) /\
  (forall bf, snd out = TopLevel.ROk bf -> bf = last (map snd (fst out)) best).
Proof.
  revert best start.
  induction shards as [|[corpus|] rest IH]; intros best start;
    [split; [exact I|intros bf [= <-]; reflexivity]| |apply IH].
  cbn [TopLevel.main_loop_single].
  set (chunks := TopLevel.create_corpus_chunks corpus CHUNK_SIZE n start).
  destruct (TopLevel.search_test_string_in_chunks order q chunks det) as [current|e].
  2:{ split; [exact I|discriminate]. }
  destruct (score best <? score current) eqn:Hlt; [apply Z.ltb_lt in Hlt|].
  - pose proof (merge_single_improves det best current Hlt) as I.
    destruct (score (TopLevel.merge_single det best current) =? 100).
    + split; [split; [exact I|exact Logic.I]|]. intros bf [= <-]. reflexivity.
    + destruct (IH (TopLevel.merge_single det best current) (start + py_len chunks))
        as [C F].
      destruct (TopLevel.main_loop_single _ _ _ _ _ _ _) as [tr out].
      cbn [fst snd map] in *. split; [split; assumption|].
      intros bf E. rewrite last_cons_default. exact (F bf E).
  - destruct (IH best (start + py_len chunks)) as [C F].
    destruct (TopLevel.main_loop_single _ _ _ _ _ _ _) as [tr out].
    cbn [fst snd map] in *. split; [split; [apply improves_refl|assumption]|].
    intros bf E. rewrite last_cons_default. exact (F bf E).
Qed.

Lemma top_main_loop_multi_chain (attach : bytes -> option bytes) (qs : list pystr) (shards : list (option (list pystr)))
    (n : option Z) (det : bool) (best : Dict SearchResult) (start : Z) :
  let out := TopLevel.main_loop_multi attach qs shards n det best start in
  chain dict_improves best (map snd (fst out)) /\
  (forall bf, snd out = TopLevel.ROk bf -> bf = last (map snd (fst out)) best).
Proof.
  revert best start.
  induction shards as [|[corpus|] rest IH]; intros best start;
    [split; [exact I|intros bf [= <-]; reflexivity]| |apply IH].
  cbn [TopLevel.main_loop_multi].
  set (chunks := TopLevel.create_corpus_chunks corpus CHUNK_SIZE n start).
  destruct (TopLevel.search_multiple_test_strings_in_chunks attach qs chunks det)
    as [current|e].
  2:{ split; [exact I|discriminate]. }
  destruct (IH (TopLevel.merge_multi det best current) (start + py_len chunks)) as [C F].
  destruct (TopLevel.main_loop_multi _ _ _ _ _ _ _) as [tr out].
  cbn [fst snd map] in *. split; [split; [apply merge_multi_improves|assumption]|].
  intros bf E. rewrite last_cons_default. exact (F bf E).
Qed.

Lemma top_main_chain (order : CorpusChunks -> CorpusChunks)
    (attach : bytes -> option bytes) (test_data : TestData)
    (shards : list (option (list pystr))) (n : option Z) (det : bool) :
  let out := TopLevel.main order attach test_data shards n det in
  chain best_improves (initial_best test_data det) (map snd (fst out)) /\
  (forall bf, snd out = TopLevel.ROk bf ->
              bf = last (map snd (fst out)) (initial_best test_data det)).
Proof.
  destruct test_data as [q|qs]; cbn [TopLevel.main initial_best].
  - pose proof (top_main_loop_single_chain order q shards n det
                  (initial_result det) 0) as [C F].
    destruct (TopLevel.main_loop_single _ _ _ _ _ _ _) as [tr out].
    cbn [fst snd] in *. rewrite map_snd_relabel. split.
    + apply chain_map with (R := improves); [apply best_single_improves|exact C].
    + intros bf E. destruct out as [b|e]; [|discriminate].
      injection E as <-. rewrite (F b eq_refl), last_map_default. reflexivity.
  - pose proof (top_main_loop_multi_chain attach qs shards n det
                  (dict_of_keys qs (initial_result det)) 0) as [C F].
    destruct (TopLevel.main_loop_multi _ _ _ _ _ _ _) as [tr out].
    cbn [fst snd] in *. rewrite map_snd_relabel. split.
    + apply chain_map with (R := dict_improves); [|exact C].
      intros a b H. exact H.
    + intros bf E. destruct out as [b|e]; [|discriminate].
      injection E as <-. rewrite (F b eq_refl), last_map_default. reflexivity.
Qed.

(** The sibling [main]: the best results never get worse.  Along the
    states of a run (the initial [best_results], then the one after each
    file searched), every query of a state is still present in the next
    one, with a score no lower and, when the score is the same, the same
    closest solution; and the final result of a run that ends normally is
    at least as good as every state of the run. *)
Theorem top_main_best_monotone (order : CorpusChunks -> CorpusChunks)
    (attach : bytes -> option bytes) (test_data : TestData)
    (shards : list (option (list pystr))) (n : option Z) (det : bool) :
  let states := initial_best test_data det
                :: map snd (fst (TopLevel.main order attach test_data shards n det)) in
  (forall pre b b' post, states = pre ++ b :: b' :: post -> best_improves b b') /\
  (forall bf, snd (TopLevel.main order attach test_data shards n det) = TopLevel.ROk bf ->
              forall b, In b states -> best_improves b bf).
Proof.
  destruct (top_main_chain order attach test_data shards n det) as [C F].
  split.
  - intros pre b b' post E. exact (chain_adjacent _ _ _ _ _ _ _ C E).
  - intros bf E b Hb. rewrite (F bf E).
    refine (chain_last best_improves _ _ _ _ C b Hb).
    + intros a. apply dict_improves_refl.
    + intros a1 a2 a3. apply dict_improves_trans.
Qed.

(** ** The single-query searches *)

Lemma collect_single_summary (q : pystr) (det : bool) (l : CorpusChunks) (r0 : SearchResult) :
  let '(r, seen) := collect_single q det l r0 in
  (exists post, l = seen ++ post) /\
  score r = fold_left Z.max (map (chunk_score q) seen) (score r0) /\
  chunk_results r
    = (if det then option_map (fun crs => crs ++ map (chunk_entry q) (filter (chunk_matched q) seen))
                              (chunk_results r0)
       else chunk_results r0) /\
  ((closest_solution r = closest_solution r0 /\ score r = score r0) \/
   exists c, In c seen /\ fast_fuzzy_match q (snd c) = (closest_solution r, score r)).
Proof.
  revert r0. induction l as [|[idx c] l IH]; intros r0.
  - simpl. split; [exists []; reflexivity|]. split; [reflexivity|]. split; [|left; auto].
    destruct det; [|reflexivity].
    destruct (chunk_results r0); simpl; [rewrite app_nil_r|]; reflexivity.
  - cbn [collect_single]. destruct (fast_fuzzy_match q c) as [m sc] eqn:Ef.
    pose (r1 := if det && py_truthy m
                then append_chunk_result r0
                       {| cr_chunk_index := idx; cr_closest_solution := m; cr_score := sc |}
                else r0).
    fold r1.
    assert (S1 : score r1 = score r0 /\ closest_solution r1 = closest_solution r0)
      by (unfold r1; destruct (det && py_truthy m); split; reflexivity).
    assert (C1 : chunk_results r1
                 = if det && py_truthy m
                   then option_map (fun l => l ++ [{| cr_chunk_index := idx;
                                                      cr_closest_solution := m;
                                                      cr_score := sc |}]) (chunk_results r0)
                   else chunk_results r0)
      by (unfold r1; destruct (det && py_truthy m); reflexivity).
    clearbody r1. destruct S1 as [S1 L1].
    assert (Hsc : chunk_score q (idx, c) = sc) by (unfold chunk_score; simpl; rewrite Ef; reflexivity).
    assert (Hent : chunk_entry q (idx, c)
                   = {| cr_chunk_index := idx; cr_closest_solution := m; cr_score := sc |})
      by (unfold chunk_entry; simpl; rewrite Ef; reflexivity).
    assert (Hmt : chunk_matched q (idx, c) = py_truthy m)
      by (unfold chunk_matched; simpl; rewrite Ef; reflexivity).
    assert (Hcr : forall tail,
       (if det then option_map (fun crs => crs ++ tail) (chunk_results r1) else chunk_results r1)
       = (if det then option_map (fun crs => crs ++ map (chunk_entry q)
                                  (if chunk_matched q (idx, c) then [(idx, c)] else []) ++ tail)
                                 (chunk_results r0)
          else chunk_results r0)).
    { intros tail. rewrite C1, Hmt. destruct det; [|reflexivity].
      destruct (py_truthy m); simpl; [|destruct (chunk_results r0); reflexivity].
      destruct (chunk_results r0); simpl; [|reflexivity].
      rewrite Hent, <- app_assoc. reflexivity. }
    destruct (score r1 <? sc) eqn:Hlt.
    + apply Z.ltb_lt in Hlt.
      destruct (sc =? 100) eqn:H100.
      * split; [exists l; reflexivity|].
        cbn [map fold_left filter]. rewrite Hsc.
        split; [simpl; lia|]. split.
        -- change (chunk_results (set_best r1 m sc)) with (chunk_results r1).
           rewrite C1, Hmt. destruct det; [|reflexivity].
           destruct (py_truthy m); destruct (chunk_results r0);
             cbn [map andb option_map]; rewrite ?Hent, ?app_nil_r; reflexivity.
        -- right. exists (idx, c). split; [left; reflexivity|]. simpl. exact Ef.
      * pose proof (IH (set_best r1 m sc)) as H.
        destruct (collect_single q det l (set_best r1 m sc)) as [r seen].
        destruct H as ((post & ->) & Hs & Hc & Hb).
        split; [exists post; reflexivity|].
        cbn [map fold_left filter]. rewrite Hsc.
        split; [rewrite Hs; simpl; f_equal; lia|]. split.
        -- rewrite Hc. simpl chunk_results. rewrite Hcr.
           destruct det; [|reflexivity].
           destruct (chunk_matched q (idx, c)); reflexivity.
        -- right. destruct Hb as [[E1 E2]|(c' & Hin & E)].
           ++ exists (idx, c). split; [left; reflexivity|].
              simpl in E1, E2. rewrite E1, E2. exact Ef.
           ++ exists c'. split; [right; exact Hin|exact E].
    + apply Z.ltb_ge in Hlt.
      pose proof (IH r1) as H.
      destruct (collect_single q det l r1) as [r seen].
      destruct H as ((post & ->) & Hs & Hc & Hb).
      split; [exists post; reflexivity|].
      cbn [map fold_left filter]. rewrite Hsc.
      split; [rewrite Hs, S1; f_equal; lia|]. split.
      * rewrite Hc, Hcr. destruct det; [|reflexivity].
        destruct (chunk_matched q (idx, c)); reflexivity.
      * destruct Hb as [[E1 E2]|(c' & Hin & E)].
        -- left. rewrite E1, E2. auto.
        -- right. exists c'. split; [right; exact Hin|exact E].
Qed.

(** [search_test_string_in_chunks]: the chunks whose results are read
    are a prefix of the completion order; the score is the highest score
    of these chunks (0 if none); with [detailed_results] the chunk results
    are those of the chunks read whose match is truthy (a non-empty
    string), in reading order, and without it they stay [None]; the
    closest solution is [None] with score 0, or the match of a chunk read,
    with that score. *)
Theorem search_test_string_in_chunks_summary (order : CorpusChunks -> CorpusChunks)
    (q : pystr) (chunks : CorpusChunks) (det : bool) :
  let '(r, seen) := search_test_string_in_chunks order q chunks det in
  (exists post, order chunks = seen ++ post) /\
  score r = fold_left Z.max (map (chunk_score q) seen) 0 /\
  chunk_results r
    = (if det then Some (map (chunk_entry q) (filter (chunk_matched q) seen)) else None) /\
  ((closest_solution r = None /\ score r = 0) \/
   exists c, In c seen /\ fast_fuzzy_match q (snd c) = (closest_solution r, score r)).
Proof.
  unfold search_test_string_in_chunks.
  pose proof (collect_single_summary q det (order chunks) (initial_result det)) as H.
  destruct (collect_single _ _ _ _) as [r seen].
  destruct H as (Hp & Hs & Hc & Hb).
  split; [exact Hp|]. split; [exact Hs|]. split; [|exact Hb].
  rewrite Hc. destruct det; reflexivity.
Qed.

Lemma top_collect_single_summary (q : pystr) (det : bool) (l : CorpusChunks)
    (bm : option pystr) (bs : Z) (crs : list ChunkResult) :
  exists seen post m sc crs',
    TopLevel.collect_single q det l bm bs crs = TopLevel.ROk (m, sc, crs') /\
    l = seen ++ post /\
    sc = fold_left Z.max (map (chunk_score q) seen) bs /\
    crs' = (if det then crs ++ map (chunk_entry q) seen else crs) /\
    ((m = bm /\ sc = bs) \/ exists c, In c seen /\ fast_fuzzy_match q (snd c) = (m, sc)) /\
    (post <> [] -> sc = 100).
Proof.
  revert bm bs crs. induction l as [|[idx c] l IH]; intros bm bs crs.
  - exists [], [], bm, bs, crs. simpl. repeat split; auto.
    + destruct det; [rewrite app_nil_r|]; reflexivity.
    + intros C. contradiction.
  - cbn [TopLevel.collect_single]. rewrite top_fast_fuzzy_match_ok.
    destruct (fast_fuzzy_match q c) as [m sc] eqn:Ef.
    assert (Hsc : chunk_score q (idx, c) = sc) by (unfold chunk_score; simpl; rewrite Ef; reflexivity).
    assert (Hent : chunk_entry q (idx, c)
                   = {| cr_chunk_index := idx; cr_closest_solution := m; cr_score := sc |})
      by (unfold chunk_entry; simpl; rewrite Ef; reflexivity).
    set (crs1 := if det then crs ++ [{| cr_chunk_index := idx; cr_closest_solution := m;
                                         cr_score := sc |}] else crs).
    assert (Hcr : forall tail, (if det then crs1 ++ tail else crs1)
                               = (if det then crs ++ map (chunk_entry q) [(idx, c)] ++ tail
                                  else crs)).
    { intros tail. unfold crs1. destruct det; [|reflexivity].
      simpl. rewrite Hent, <- app_assoc. reflexivity. }
    destruct (bs <? sc) eqn:Hlt; [apply Z.ltb_lt in Hlt|apply Z.ltb_ge in Hlt].
    + destruct (sc =? 100) eqn:H100.
      * apply Z.eqb_eq in H100.
        exists [(idx, c)], l, m, sc, crs1. split; [reflexivity|].
        split; [reflexivity|]. cbn [map fold_left]. rewrite Hsc.
        split; [lia|]. split.
        -- unfold crs1. destruct det; [|reflexivity].
           cbn [map]. rewrite Hent. reflexivity.
        -- split; [right; exists (idx, c); split; [left; reflexivity|exact Ef]|].
           intros _. exact H100.
      * destruct (IH m sc crs1) as (seen & post & m' & sc' & crs' & E & -> & Hs & Hc & Hb & Hp).
        exists ((idx, c) :: seen), post, m', sc', crs'. split; [exact E|].
        split; [reflexivity|]. cbn [map fold_left]. rewrite Hsc.
        split; [rewrite Hs; f_equal; lia|]. split.
        -- rewrite Hc, Hcr. reflexivity.
        -- split; [|exact Hp]. right.
           destruct Hb as [[-> ->]|(c' & Hin & E')].
           ++ exists (idx, c). split; [left; reflexivity|exact Ef].
           ++ exists c'. split; [right; exact Hin|exact E'].
    + destruct (IH bm bs crs1) as (seen & post & m' & sc' & crs' & E & -> & Hs & Hc & Hb & Hp).
      exists ((idx, c) :: seen), post, m', sc', crs'. split; [exact E|].
      split; [reflexivity|]. cbn [map fold_left]. rewrite Hsc.
      split; [rewrite Hs; f_equal; lia|]. split.
      * rewrite Hc, Hcr. reflexivity.
      * split; [|exact Hp].
        destruct Hb as [[-> ->]|(c' & Hin & E')]; [left; auto|].
        right. exists c'. split; [right; exact Hin|exact E'].
Qed.

(** The sibling [search_test_string_in_chunks] never raises; the chunks
    whose results are read are a prefix of the completion order, cut only
    after a score of 100; the score is the highest score of these chunks
    (0 if none); with [detailed_results] every chunk read gets a chunk
    result, also one without a match, in reading order. *)
Theorem top_search_test_string_in_chunks_summary (order : CorpusChunks -> CorpusChunks)
    (q : pystr) (chunks : CorpusChunks) (det : bool) :
  exists r seen post,
    TopLevel.search_test_string_in_chunks order q chunks det = TopLevel.ROk r /\
    order chunks = seen ++ post /\
    score r = fold_left Z.max (map (chunk_score q) seen) 0 /\
    chunk_results r = (if det then Some (map (chunk_entry q) seen) else None) /\
    (post <> [] -> score r = 100).
Proof.
  unfold TopLevel.search_test_string_in_chunks.
  destruct (top_collect_single_summary q det (order chunks) None 0 [])
    as (seen & post & m & sc & crs' & E & Hl & Hs & Hc & _ & Hp).
  rewrite E. eexists. exists seen, post. split; [reflexivity|].
  simpl. split; [exact Hl|]. split; [exact Hs|]. split; [|exact Hp].
  rewrite Hc. destruct det; reflexivity.
Qed.

(** ** The batch search *)

Lemma dict_get_set {V} (d : Dict V) (k q : pystr) (v : V) :
  dict_get (dict_set d k v) q
  = if list_eq_dec Z.eq_dec q k then Some v else dict_get d q.
Proof.
  induction d as [|[k' v'] d IH]; simpl.
  - destruct (list_eq_dec Z.eq_dec q k); reflexivity.
  - destruct (list_eq_dec Z.eq_dec k k') as [<-|Hne]; simpl.
    + destruct (list_eq_dec Z.eq_dec q k); reflexivity.
    + destruct (list_eq_dec Z.eq_dec q k') as [->|Hq'].
      * destruct (list_eq_dec Z.eq_dec k' k) as [E|_]; [congruence|reflexivity].
      * exact IH.
Qed.

Lemma dict_get_of_keys {V} (qs : list pystr) (v : V) (q : pystr) :
  In q qs -> dict_get (dict_of_keys qs v) q = Some v.
Proof.
  unfold dict_of_keys.
  assert (H : forall d, dict_get (fold_left (fun d k => dict_set d k v) qs d) q
                        = if in_dec (list_eq_dec Z.eq_dec) q qs then Some v else dict_get d q).
  { induction qs as [|k qs IH]; intros d; [reflexivity|].
    simpl. rewrite IH, dict_get_set.
    destruct (in_dec (list_eq_dec Z.eq_dec) q qs); destruct (list_eq_dec Z.eq_dec q k);
      destruct (list_eq_dec Z.eq_dec k q); try reflexivity; intuition congruence. }
  intros Hq. rewrite H. destruct (in_dec (list_eq_dec Z.eq_dec) q qs); [reflexivity|contradiction].
Qed.

Lemma publish_attach_ok (s : pystr) :
  valid_pystr s -> existsb is_surrogate s = false -> s <> [] ->
  exists region, shm_publish s = Ok region /\ shm_attach_decode (os_attach region) = Ok s.
Proof.
  intros Hv Hs Hne.
  exists (flat_map encode_cp s). split.
  - unfold shm_publish, utf8_encode. rewrite Hs. unfold shm_create.
    destruct (Nat.eqb_spec (length (flat_map encode_cp s)) 0) as [H0|H0].
    + exfalso. destruct s as [|c s]; [contradiction|].
      simpl in H0. rewrite length_app in H0.
      destruct (encode_cp c) eqn:Ec; [exact (encode_cp_nonempty c Ec)|discriminate].
    + rewrite shm_write_fresh. reflexivity.
  - unfold shm_attach_decode, os_attach. rewrite utf8_decode_encode by assumption.
    reflexivity.
Qed.

Lemma entry_step_trans (m : option pystr) (sc : Z) (r1 r2 r3 : SearchResult) :
  entry_step m sc r1 r2 -> entry_step m sc r2 r3 -> entry_step m sc r1 r3.
Proof.
  intros [S12 C12] [S23 C23]. split; [lia|].
  destruct C23 as [[E1 E2]|E]; [|right; exact E].
  rewrite E1, E2. destruct C12 as [[F1 F2]|F]; [left; split; [exact F1|lia]|right; exact F].
Qed.

Lemma collect_multi_ok (det : bool) (idx : Z) (c : pystr) (ts : list pystr)
    (results : Dict SearchResult) :
  exists results',
    collect_multi det idx (map (fun t => (t, Ok (fast_fuzzy_match t c))) ts) results
      = Ok results' /\
    forall q r, dict_get results q = Some r ->
      exists r', dict_get results' q = Some r' /\
        (if in_dec (list_eq_dec Z.eq_dec) q ts
         then entry_step (fst (fast_fuzzy_match q c)) (snd (fast_fuzzy_match q c)) r r'
         else r' = r).
Proof.
  revert results. induction ts as [|t ts IH]; intros results.
  - exists results. split; [reflexivity|]. intros q r H. exists r.
    split; [exact H|]. simpl. reflexivity.
  - cbn [map collect_multi].
    destruct (fast_fuzzy_match t c) as [m sc] eqn:Ef.
    match goal with
    | |- exists _, collect_multi _ _ _ (dict_modify _ _ ?f) = _ /\ _ => set (upd := f)
    end.
    assert (Hupd : forall r, entry_step m sc r (upd r)).
    { intros r. unfold upd, entry_step.
      destruct (det && py_truthy m); cbn [append_chunk_result score closest_solution];
        destruct (score r <? sc) eqn:Hlt; [apply Z.ltb_lt in Hlt|apply Z.ltb_ge in Hlt| 
                                            apply Z.ltb_lt in Hlt|apply Z.ltb_ge in Hlt];
        simpl; (split; [lia|]); auto. }
    destruct (IH (dict_modify results t upd)) as (results' & E & H).
    exists results'. split; [exact E|].
    intros q r Hq.
    destruct (list_eq_dec Z.eq_dec q t) as [->|Hne].
    + assert (Ht : dict_get (dict_modify results t upd) t = Some (upd r))
        by (rewrite dict_get_modify_same, Hq; reflexivity).
      destruct (H t (upd r) Ht) as (r' & Hr' & Hs).
      exists r'. split; [exact Hr'|].
      destruct (in_dec (list_eq_dec Z.eq_dec) t (t :: ts)) as [_|C]; [|exfalso; apply C; left; reflexivity].
      rewrite Ef. simpl.
      destruct (in_dec (list_eq_dec Z.eq_dec) t ts).
      * rewrite Ef in Hs. eapply entry_step_trans; [apply Hupd|exact Hs].
      * subst r'. apply Hupd.
    + assert (Hq' : dict_get (dict_modify results t upd) q = Some r)
        by (rewrite dict_get_modify_other by exact Hne; exact Hq).
      destruct (H q r Hq') as (r' & Hr' & Hs). exists r'. split; [exact Hr'|].
      destruct (in_dec (list_eq_dec Z.eq_dec) q (t :: ts)) as [Hin|Hnin]; destruct (in_dec (list_eq_dec Z.eq_dec) q ts) as [Hin'|Hnin'];
        [exact Hs| |exfalso; apply Hnin; right; exact Hin'|exact Hs].
      exfalso. destruct Hin as [Eq|Eq]; [congruence|contradiction].
Qed.

Lemma process_chunks_ok (qs : list pystr) (det : bool) (chunks : CorpusChunks)
    (results : Dict SearchResult) :
  Forall publishable chunks ->
  exists d,
    process_chunks os_attach qs det chunks results = Ok d /\
    forall q r, In q qs -> dict_get results q = Some r ->
      exists r', dict_get d q = Some r' /\
        score r' = fold_left Z.max (map (chunk_score q) chunks) (score r) /\
        ((closest_solution r' = closest_solution r /\ score r' = score r) \/
         exists c, In c chunks /\ fast_fuzzy_match q (snd c) = (closest_solution r', score r')).
Proof.
  intros Hp. revert results.
  induction Hp as [|[idx c] chunks [Hv [Hs Hne]] Hp IH]; intros results.
  - exists results. split; [reflexivity|]. intros q r _ H. exists r. auto.
  - simpl in Hv, Hs, Hne.
    destruct (publish_attach_ok c Hv Hs Hne) as (region & Hpub & Hatt).
    cbn [process_chunks process_chunk]. rewrite Hpub.
    assert (Hmap : map (fun t => (t, fuzzy_match_shared_memory (os_attach region) t)) qs
                   = map (fun t => (t, Ok (fast_fuzzy_match t c))) qs).
    { apply map_ext. intros t. unfold fuzzy_match_shared_memory. rewrite Hatt. reflexivity. }
    rewrite Hmap.
    destruct (collect_multi_ok det idx c qs results) as (r1 & E1 & H1). rewrite E1.
    destruct (IH r1) as (d & Ed & Hd). exists d. split; [exact Ed|].
    intros q r Hq Hr.
    destruct (H1 q r Hr) as (r' & Hr' & Hst).
    destruct (in_dec (list_eq_dec Z.eq_dec) q qs) as [_|C]; [|contradiction].
    destruct (Hd q r' Hq Hr') as (r'' & Hr'' & Hsc & Hcl).
    destruct Hst as [Hs1 Hc1].
    exists r''. split; [exact Hr''|].
    assert (Hcs : chunk_score q (idx, c) = snd (fast_fuzzy_match q c)) by reflexivity.
    cbn [map fold_left]. rewrite Hcs, <- Hs1. split; [exact Hsc|].
    destruct Hcl as [[E1' E2']|(c' & Hin & E)].
    + destruct Hc1 as [[F1 F2]|[F1 F2]].
      * left. split; congruence.
      * right. exists (idx, c). split; [left; reflexivity|].
        simpl. rewrite E1', E2', F1, F2. destruct (fast_fuzzy_match q c); reflexivity.
    + right. exists c'. split; [right; exact Hin|exact E].
Qed.

(** [search_multiple_test_strings_in_chunks] with the operating system's
    shared memory: when every chunk can be published (code points, no
    surrogate, not empty) the search does not raise, and the entry of each
    query holds the highest score of the query over all the chunks (0 if
    none) and a closest solution that is [None] with score 0 or the match
    of a chunk with that score. *)
Theorem search_multiple_test_strings_in_chunks_max (qs : list pystr)
    (chunks : CorpusChunks) (det : bool) :
  Forall publishable chunks ->
  exists d,
    search_multiple_test_strings_in_chunks os_attach qs chunks det = Ok d /\
    forall q, In q qs ->
      exists r, dict_get d q = Some r /\
        score r = fold_left Z.max (map (chunk_score q) chunks) 0 /\
        ((closest_solution r = None /\ score r = 0) \/
         exists c, In c chunks /\ fast_fuzzy_match q (snd c) = (closest_solution r, score r)).
Proof.
  intros Hp. unfold search_multiple_test_strings_in_chunks.
  destruct (process_chunks_ok qs det chunks (dict_of_keys qs (initial_result det)) Hp)
    as (d & Ed & Hd).
  exists d. split; [exact Ed|].
  intros q Hq.
  destruct (Hd q (initial_result det) Hq (dict_get_of_keys qs _ q Hq)) as (r & Hr & Hs & Hc).
  exists r. split; [exact Hr|]. split; [exact Hs|]. exact Hc.
Qed.

Lemma search_multiple_test_strings_in_chunks_max_witness :
  Forall publishable [(0, pystr_of "xab"); (1, pystr_of "ab")] /\
  exists d,
    search_multiple_test_strings_in_chunks os_attach [pystr_of "ab"]
      [(0, pystr_of "xab"); (1, pystr_of "ab")] false = Ok d /\
    forall q, In q [pystr_of "ab"] ->
      exists r, dict_get d q = Some r /\
        score r = fold_left Z.max (map (chunk_score q)
                                     [(0, pystr_of "xab"); (1, pystr_of "ab")]) 0 /\
        ((closest_solution r = None /\ score r = 0) \/
         exists c, In c [(0, pystr_of "xab"); (1, pystr_of "ab")] /\
                   fast_fuzzy_match q (snd c) = (closest_solution r, score r)).
Proof.
  assert (Hp : Forall publishable [(0, pystr_of "xab"); (1, pystr_of "ab")]).
  { unfold publishable, valid_pystr, pystr_of. simpl.
    repeat constructor; try lia; discriminate. }
  split; [exact Hp|].
  apply (search_multiple_test_strings_in_chunks_max [pystr_of "ab"]
           [(0, pystr_of "xab"); (1, pystr_of "ab")] false).
  exact Hp.
Defined.

Lemma top_collect_multi_ok (det : bool) (idx : Z) (c : pystr) (ts : list pystr)
    (results : Dict SearchResult) :
  exists results',
    TopLevel.collect_multi det idx
      (map (fun t => (t, TopLevel.ROk (fast_fuzzy_match t c))) ts) results
      = TopLevel.ROk results' /\
    forall q r, dict_get results q = Some r ->
      exists r', dict_get results' q = Some r' /\
        (if in_dec (list_eq_dec Z.eq_dec) q ts
         then entry_step (fst (fast_fuzzy_match q c)) (snd (fast_fuzzy_match q c)) r r'
         else r' = r).
Proof.
  revert results. induction ts as [|t ts IH]; intros results.
  - exists results. split; [reflexivity|]. intros q r H. exists r.
    split; [exact H|]. simpl. reflexivity.
  - cbn [map TopLevel.collect_multi].
    destruct (fast_fuzzy_match t c) as [m sc] eqn:Ef.
    match goal with
    | |- exists _, TopLevel.collect_multi _ _ _ (dict_modify _ _ ?f) = _ /\ _ => set (upd := f)
    end.
    assert (Hupd : forall r, entry_step m sc r (upd r)).
    { intros r. unfold upd, entry_step.
      destruct (det && py_truthy m); cbn [append_chunk_result score closest_solution];
        destruct (score r <? sc) eqn:Hlt; [apply Z.ltb_lt in Hlt|apply Z.ltb_ge in Hlt| 
                                            apply Z.ltb_lt in Hlt|apply Z.ltb_ge in Hlt];
        simpl; (split; [lia|]); auto. }
    destruct (IH (dict_modify results t upd)) as (results' & E & H).
    exists results'. split; [exact E|].
    intros q r Hq.
    destruct (list_eq_dec Z.eq_dec q t) as [->|Hne].
    + assert (Ht : dict_get (dict_modify results t upd) t = Some (upd r))
        by (rewrite dict_get_modify_same, Hq; reflexivity).
      destruct (H t (upd r) Ht) as (r' & Hr' & Hs).
      exists r'. split; [exact Hr'|].
      destruct (in_dec (list_eq_dec Z.eq_dec) t (t :: ts)) as [_|C]; [|exfalso; apply C; left; reflexivity].
      rewrite Ef. simpl.
      destruct (in_dec (list_eq_dec Z.eq_dec) t ts).
      * rewrite Ef in Hs. eapply entry_step_trans; [apply Hupd|exact Hs].
      * subst r'. apply Hupd.
    + assert (Hq' : dict_get (dict_modify results t upd) q = Some r)
        by (rewrite dict_get_modify_other by exact Hne; exact Hq).
      destruct (H q r Hq') as (r' & Hr' & Hs). exists r'. split; [exact Hr'|].
      destruct (in_dec (list_eq_dec Z.eq_dec) q (t :: ts)) as [Hin|Hnin]; destruct (in_dec (list_eq_dec Z.eq_dec) q ts) as [Hin'|Hnin'];
        [exact Hs| |exfalso; apply Hnin; right; exact Hin'|exact Hs].
      exfalso. destruct Hin as [Eq|Eq]; [congruence|contradiction].
Qed.

Lemma top_process_chunks_ok (qs : list pystr) (det : bool) (chunks : CorpusChunks)
    (results : Dict SearchResult) :
  Forall publishable chunks ->
  exists d,
    TopLevel.process_chunks os_attach qs det chunks results = TopLevel.ROk d /\
    forall q r, In q qs -> dict_get results q = Some r ->
      exists r', dict_get d q = Some r' /\
        score r' = fold_left Z.max (map (chunk_score q) chunks) (score r) /\
        ((closest_solution r' = closest_solution r /\ score r' = score r) \/
         exists c, In c chunks /\ fast_fuzzy_match q (snd c) = (closest_solution r', score r')).
Proof.
  intros Hp. revert results.
  induction Hp as [|[idx c] chunks [Hv [Hs Hne]] Hp IH]; intros results.
  - exists results. split; [reflexivity|]. intros q r _ H. exists r. auto.
  - simpl in Hv, Hs, Hne.
    destruct (publish_attach_ok c Hv Hs Hne) as (region & Hpub & Hatt).
    cbn [TopLevel.process_chunks TopLevel.process_chunk]. rewrite Hpub.
    assert (Hmap : map (fun t => (t, TopLevel.fuzzy_match_shared_memory (os_attach region) t)) qs
                   = map (fun t => (t, TopLevel.ROk (fast_fuzzy_match t c))) qs).
    { apply map_ext. intros t. unfold TopLevel.fuzzy_match_shared_memory. rewrite Hatt.
      apply f_equal, top_fast_fuzzy_match_ok. }
    rewrite Hmap.
    destruct (top_collect_multi_ok det idx c qs results) as (r1 & E1 & H1). rewrite E1.
    destruct (IH r1) as (d & Ed & Hd). exists d. split; [exact Ed|].
    intros q r Hq Hr.
    destruct (H1 q r Hr) as (r' & Hr' & Hst).
    destruct (in_dec (list_eq_dec Z.eq_dec) q qs) as [_|C]; [|contradiction].
    destruct (Hd q r' Hq Hr') as (r'' & Hr'' & Hsc & Hcl).
    destruct Hst as [Hs1 Hc1].
    exists r''. split; [exact Hr''|].
    assert (Hcs : chunk_score q (idx, c) = snd (fast_fuzzy_match q c)) by reflexivity.
    cbn [map fold_left]. rewrite Hcs, <- Hs1. split; [exact Hsc|].
    destruct Hcl as [[E1' E2']|(c' & Hin & E)].
    + destruct Hc1 as [[F1 F2]|[F1 F2]].
      * left. split; congruence.
      * right. exists (idx, c). split; [left; reflexivity|].
        simpl. rewrite E1', E2', F1, F2. destruct (fast_fuzzy_match q c); reflexivity.
    + right. exists c'. split; [right; exact Hin|exact E].
Qed.

(** The sibling [search_multiple_test_strings_in_chunks] with the
    operating system's shared memory: when every chunk can be published
    the search does not raise, and the entry of each query holds the
    highest score of the query over all the chunks (0 if none) and a
    closest solution that is [None] with score 0 or the match of a chunk
    with that score. *)
Theorem top_search_multiple_test_strings_in_chunks_max (qs : list pystr)
    (chunks : CorpusChunks) (det : bool) :
  Forall publishable chunks ->
  exists d,
    TopLevel.search_multiple_test_strings_in_chunks os_attach qs chunks det = TopLevel.ROk d /\
    forall q, In q qs ->
      exists r, dict_get d q = Some r /\
        score r = fold_left Z.max (map (chunk_score q) chunks) 0 /\
        ((closest_solution r = None /\ score r = 0) \/
         exists c, In c chunks /\ fast_fuzzy_match q (snd c) = (closest_solution r, score r)).
Proof.
  intros Hp. unfold TopLevel.search_multiple_test_strings_in_chunks.
  destruct (top_process_chunks_ok qs det chunks (dict_of_keys qs TopLevel.overall_initial) Hp)
    as (d & Ed & Hd).
  exists d. split; [exact Ed|].
  intros q Hq.
  destruct (Hd q TopLevel.overall_initial Hq (dict_get_of_keys qs _ q Hq))
    as (r & Hr & Hs & Hc).
  exists r. split; [exact Hr|]. split; [exact Hs|]. exact Hc.
Qed.

Lemma top_search_multiple_test_strings_in_chunks_max_witness :
  Forall publishable [(0, pystr_of "xab"); (1, pystr_of "ab")] /\
  exists d,
    TopLevel.search_multiple_test_strings_in_chunks os_attach [pystr_of "ab"]
      [(0, pystr_of "xab"); (1, pystr_of "ab")] true = TopLevel.ROk d /\
    forall q, In q [pystr_of "ab"] ->
      exists r, dict_get d q = Some r /\
        score r = fold_left Z.max (map (chunk_score q)
                                     [(0, pystr_of "xab"); (1, pystr_of "ab")]) 0 /\
        ((closest_solution r = None /\ score r = 0) \/
         exists c, In c [(0, pystr_of "xab"); (1, pystr_of "ab")] /\
                   fast_fuzzy_match q (snd c) = (closest_solution r, score r)).
Proof.
  assert (Hp : Forall publishable [(0, pystr_of "xab"); (1, pystr_of "ab")]).
  { unfold publishable, valid_pystr, pystr_of. simpl.
    repeat constructor; try lia; discriminate. }
  split; [exact Hp|].
  apply (top_search_multiple_test_strings_in_chunks_max [pystr_of "ab"]
           [(0, pystr_of "xab"); (1, pystr_of "ab")] true).
  exact Hp.
Defined.

Lemma fold_max_chunk_score_le (q : pystr) (l : CorpusChunks) (a : Z) :
  a <= 100 -> fold_left Z.max (map (chunk_score q) l) a <= 100.
Proof.
  revert a. induction l as [|c l IH]; intros a Ha; [exact Ha|].
  simpl. apply IH.
  pose proof (fast_fuzzy_match_result q (snd c)) as H.
  unfold chunk_score. destruct (fast_fuzzy_match q (snd c)) as [m s]. simpl. lia.
Qed.

Lemma top_search_single_le_100 (order : CorpusChunks -> CorpusChunks) (q : pystr)
    (chunks : CorpusChunks) (det : bool) (r : SearchResult) :
  TopLevel.search_test_string_in_chunks order q chunks det = TopLevel.ROk r -> score r <= 100.
Proof.
  unfold TopLevel.search_test_string_in_chunks.
  destruct (top_collect_single_summary q det (order chunks) None 0 [])
    as (seen & post & m & sc & crs' & E & _ & Hs & _).
  rewrite E. intros [= <-]. simpl. rewrite Hs. apply fold_max_chunk_score_le. lia.
Qed.

Lemma top_main_loop_single_stops (order : CorpusChunks -> CorpusChunks) (q : pystr)
    (shards : list (option (list pystr))) (n : option Z) (det : bool) :
  forall best start pre c b post,
    score best < 100 ->
    fst (TopLevel.main_loop_single order q shards n det best start) = pre ++ (c, b) :: post ->
    score b = 100 ->
    post = [] /\ snd (TopLevel.main_loop_single order q shards n det best start) = TopLevel.ROk b.
Proof.
  induction shards as [|[corpus|] rest IH]; intros best start pre c b post Hb E H100.
  - destruct pre; discriminate.
  - cbn [TopLevel.main_loop_single] in E |- *.
    set (chunks := TopLevel.create_corpus_chunks corpus CHUNK_SIZE n start) in *.
    destruct (TopLevel.search_test_string_in_chunks order q chunks det) as [current|e] eqn:Es.
    2:{ destruct pre; discriminate. }
    pose proof (top_search_single_le_100 order q chunks det current Es) as Hc.
    destruct (score best <? score current) eqn:Hlt.
    + destruct (score (TopLevel.merge_single det best current) =? 100) eqn:Hm.
      * destruct pre as [|p pre]; [|destruct pre; discriminate].
        injection E as <- <- <-. split; reflexivity.
      * apply Z.eqb_neq in Hm.
        assert (Hm' : score (TopLevel.merge_single det best current) < 100)
          by (unfold TopLevel.merge_single in *; simpl in *; lia).
        specialize (IH (TopLevel.merge_single det best current) (start + py_len chunks)).
        destruct (TopLevel.main_loop_single _ _ _ _ _ _ _) as [tr out].
        cbn [fst snd] in E, IH |- *.
        destruct pre as [|p pre].
        -- injection E as <- <- _. contradiction.
        -- injection E as _ E. exact (IH pre c b post Hm' E H100).
    + specialize (IH best (start + py_len chunks)).
      destruct (TopLevel.main_loop_single _ _ _ _ _ _ _) as [tr out].
      cbn [fst snd] in E, IH |- *.
      destruct pre as [|p pre].
      -- injection E as _ <- _. lia.
      -- injection E as _ E. exact (IH pre c b post Hb E H100).
  - cbn [TopLevel.main_loop_single] in E |- *. exact (IH best start pre c b post Hb E H100).
Qed.

(** The sibling [main] in single-query mode stops at a perfect match:
    once the best result reaches a score of 100 after a file, no further
    file is read and that result is the final one. *)
Theorem top_main_single_stops_at_100 (order : CorpusChunks -> CorpusChunks)
    (attach : bytes -> option bytes) (q : pystr) (shards : list (option (list pystr)))
    (n : option Z) (det : bool) (pre post : list (CorpusChunks * TopLevel.BestResults))
    (c : CorpusChunks) (r : SearchResult) :
  fst (TopLevel.main order attach (SingleTest q) shards n det)
    = pre ++ (c, TopLevel.BestSingle q r) :: post ->
  score r = 100 ->
  post = [] /\
  snd (TopLevel.main order attach (SingleTest q) shards n det) = TopLevel.ROk (TopLevel.BestSingle q r).
Proof.
  intros E H100. cbn [TopLevel.main] in E |- *.
  pose proof (top_main_loop_single_stops order q shards n det (initial_result det) 0) as Hs.
  destruct (TopLevel.main_loop_single _ _ _ _ _ _ _) as [tr out].
  cbn [fst snd] in E, Hs |- *.
  apply map_eq_app in E as (l1 & l2 & -> & E1 & E2).
  apply map_eq_cons in E2 as ([c0 b0] & tl & -> & Ef & Et).
  injection Ef as -> ->.
  destruct (Hs l1 c r tl ltac:(simpl; lia) eq_refl H100) as [-> ->].
  split; [rewrite <- Et; reflexivity|reflexivity].
Qed.

Lemma top_main_single_stops_at_100_witness :
  fst (TopLevel.main (fun l => l) os_attach (SingleTest (pystr_of "ab"))
         [Some [pystr_of "ab"]; Some [pystr_of "cd"]] None false)
    = [] ++ ([(0, pystr_of "ab")],
             TopLevel.BestSingle (pystr_of "ab")
               {| closest_solution := Some (pystr_of "ab"); score := 100;
                  chunk_results := None |}) :: [] /\
  score {| closest_solution := Some (pystr_of "ab"); score := 100; chunk_results := None |}
    = 100 /\
  ([] : list (CorpusChunks * TopLevel.BestResults)) = [] /\
  snd (TopLevel.main (fun l => l) os_attach (SingleTest (pystr_of "ab"))
         [Some [pystr_of "ab"]; Some [pystr_of "cd"]] None false)
    = TopLevel.ROk (TopLevel.BestSingle (pystr_of "ab")
                      {| closest_solution := Some (pystr_of "ab"); score := 100;
                         chunk_results := None |}).
Proof.
  assert (E : fst (TopLevel.main (fun l => l) os_attach (SingleTest (pystr_of "ab"))
                     [Some [pystr_of "ab"]; Some [pystr_of "cd"]] None false)
              = [] ++ ([(0, pystr_of "ab")],
                       TopLevel.BestSingle (pystr_of "ab")
                         {| closest_solution := Some (pystr_of "ab"); score := 100;
                            chunk_results := None |}) :: []) by (vm_compute; reflexivity).
  split; [exact E|]. split; [reflexivity|].
  apply (top_main_single_stops_at_100 (fun l => l) os_attach (pystr_of "ab")
           [Some [pystr_of "ab"]; Some [pystr_of "cd"]] None false [] []
           [(0, pystr_of "ab")]
           {| closest_solution := Some (pystr_of "ab"); score := 100; chunk_results := None |}
           E eq_refl).
Defined.
